(** * Intro to Deep Learning with PyTorch: training loop and checkpoints

    A shallow embedding of the two notebooks

    - [Part 3 - Training Neural Networks.ipynb] (the [nn.Sequential] model,
      the single training step of cell 13, the epoch loop of cell 15), and
    - [Part 6 - Saving and Loading Models.ipynb] (state dicts, the loading
      into another architecture of cell 10, the checkpoint dictionary of
      cell 11, [load_checkpoint] of cell 12).

    Three kinds of definitions occur, and their comments say which is which:

    - the cells of the notebooks, translated statement by statement;
    - the operations of the tensor framework that the cells call
      ([F.linear], [log_softmax], [nn.Dropout], [state_dict],
      [load_state_dict], [zero_grad], [backward], [step], ...), written after
      the behaviour of the framework; the gradient that autograd computes is
      kept as a parameter;
    - the class [fc_model.Network], whose file is not among the sources: it
      is modelled from the specification, and from the module tree that
      Part 6 prints.

    Numbers are kept abstract (class [Scalar]): everything structural is
    proved for any arithmetic, floating-point arithmetic included; the
    statements that need the laws of [exp] and [ln] are proved at the
    instance of the real numbers.  Sizes are natural numbers. *)

From Stdlib Require Import Reals Lra.
From stdpp Require Import base list strings pretty gmap.

(** ** Results of fallible calls *)

(** The mismatch record of [load_state_dict]: key, shape in the checkpoint,
    shape in the current model. *)
Definition size_mismatch : Type := string * list nat * list nat.

(** What [load_state_dict] collects before it raises. *)
Record load_report := LoadReport {
  missing_keys : list string;
  unexpected_keys : list string;
  size_mismatches : list size_mismatch
}.

(** Python exceptions the notebooks can meet. *)
Inductive exn :=
| KeyError (key : string)
| TypeError (field : string)
| IndexError
| FileNotFoundError (path : string)
| ZeroDivisionError
| ShapeError (expected got : nat)
| ViewError
| TargetError
| StateDictError (r : load_report).

Inductive result (A : Type) :=
| Ok (a : A)
| Raise (e : exn).
Arguments Ok {A} a.
Arguments Raise {A} e.

Definition rbind {A B} (r : result A) (k : A -> result B) : result B :=
  match r with
  | Ok a => k a
  | Raise e => Raise e
  end.

Notation "x <~ r ; k" := (rbind r (fun x => k))
  (at level 20, r at level 100, k at level 200, only parsing).

(** ** Numbers *)

Class Scalar (T : Type) := {
  s_zero : T;
  s_one : T;
  s_add : T -> T -> T;
  s_sub : T -> T -> T;
  s_mul : T -> T -> T;
  s_div : T -> T -> T;
  s_max : T -> T -> T;
  s_exp : T -> T;
  s_log : T -> T;
  s_of_nat : nat -> T
}.

#[export] Instance R_scalar : Scalar R := {|
  s_zero := 0%R;
  s_one := 1%R;
  s_add := Rplus;
  s_sub := Rminus;
  s_mul := Rmult;
  s_div := Rdiv;
  s_max := Rmax;
  s_exp := exp;
  s_log := ln;
  s_of_nat := INR
|}.

(** ** Tensors and layers *)

(** A tensor: its [torch.Size] and its entries in row-major order. *)
Record Tensor (T : Type) := mkTensor {
  shape : list nat;
  data : list T
}.
Arguments mkTensor {T} shape data.
Arguments shape {T} t.
Arguments data {T} t.

(** [nn.Linear]: weight of shape [out_features; in_features], bias of shape
    [out_features]. *)
Record Linear (T : Type) := mkLinear {
  in_features : nat;
  out_features : nat;
  weight : Tensor T;
  bias : Tensor T
}.
Arguments mkLinear {T} in_features out_features weight bias.
Arguments in_features {T} l.
Arguments out_features {T} l.
Arguments weight {T} l.
Arguments bias {T} l.

(** Modelled from the spec: the class [fc_model.Network] (the file
    [fc_model.py] is imported by Part 6 but is not among the sources).  The
    fields follow the module tree Part 6 prints: a [ModuleList] called
    [hidden_layers], a [Linear] called [output], and [Dropout(p=0.5)]. *)
Record Network (T : Type) := mkNetwork {
  hidden_layers : list (Linear T);
  output : Linear T;
  dropout_p : T
}.
Arguments mkNetwork {T} hidden_layers output dropout_p.
Arguments hidden_layers {T} n.
Arguments output {T} n.
Arguments dropout_p {T} n.

(** An [OrderedDict] from parameter names to tensors. *)
Definition StateDict (T : Type) : Type := list (string * Tensor T).

(** The values stored in the checkpoint dictionary. *)
Inductive pyval (T : Type) :=
| PyInt (n : nat)
| PyIntList (l : list nat)
| PyStateDict (sd : StateDict T).
Arguments PyInt {T} n.
Arguments PyIntList {T} l.
Arguments PyStateDict {T} sd.

(** A Python [dict] with string keys, in insertion order. *)
Definition pydict (T : Type) : Type := list (string * pyval T).

(** Files written by [torch.save], by path. *)
Abbreviation filesystem T := (gmap string (pydict T)) (only parsing).

(** A batch of activations, one row per example. *)
Definition rows (T : Type) : Type := list (list T).

Section Framework.
Context {T : Type} {ST : Scalar T}.

Definition sum_scalars (l : list T) : T := foldr s_add s_zero l.

(** *** Functional layers *)

Definition dot (x w : list T) : T :=
  sum_scalars (zip_with s_mul x w).

(** Row [o] of a weight matrix stored row-major with rows of length [n]. *)
Definition weight_row (n : nat) (W : Tensor T) (o : nat) : list T :=
  take n (drop (o * n) (data W)).

Definition linear_row (W b : Tensor T) (x : list T) : list T :=
  let out := nth 0 (shape W) 0 in
  let n := nth 1 (shape W) 0 in
  map (fun o => s_add (dot x (weight_row n W o)) (nth o (data b) s_zero))
      (seq 0 out).

(** [F.linear(x, W, b)], that is [x W^T + b]; the second dimension of [x]
    must be the second dimension of [W]. *)
Definition F_linear (W b : Tensor T) (x : rows T) : result (rows T) :=
  let n := nth 1 (shape W) 0 in
  match list_find (fun r => length r <> n) x with
  | Some (_, r) => Raise (ShapeError n (length r))
  | None => Ok (map (linear_row W b) x)
  end.

(** [F.relu]: [max(0, x)] elementwise. *)
Definition relu (x : rows T) : rows T := map (map (s_max s_zero)) x.

(** [log_softmax(x, dim=1)]: every row normalised on its own,
    [log (exp x_i / sum_j exp x_j)]. *)
Definition log_softmax_row (r : list T) : list T :=
  let s := sum_scalars (map s_exp r) in
  map (fun a => s_log (s_div (s_exp a) s)) r.

Definition log_softmax (x : rows T) : rows T := map log_softmax_row x.

(** *** Dropout *)

(** The random bits of the generator are a tape [nat -> bool] read from a
    position: every activation draws its own bit; [true] keeps it. *)
Definition dropout_elem (p : T) (keep : bool) (a : T) : T :=
  if keep then s_mul a (s_div s_one (s_sub s_one p)) else s_zero.

Fixpoint dropout_row (p : T) (tape : nat -> bool) (pos : nat) (r : list T)
  : list T :=
  match r with
  | [] => []
  | a :: r' => dropout_elem p (tape pos) a :: dropout_row p tape (S pos) r'
  end.

Fixpoint dropout_rows (p : T) (tape : nat -> bool) (pos : nat) (x : rows T)
  : rows T * nat :=
  match x with
  | [] => ([], pos)
  | r :: x' =>
      let '(y, pos') := dropout_rows p tape (pos + length r) x' in
      (dropout_row p tape pos r :: y, pos')
  end.

(** [nn.Dropout]: active in training mode only. *)
Definition dropout (training : bool) (p : T) (tape : nat -> bool)
    (pos : nat) (x : rows T) : rows T * nat :=
  if training then dropout_rows p tape pos x else (x, pos).

(** *** Construction *)

(** Initial values come from the generator: a stream read from a position. *)
Definition Linear_init (rng : nat -> T) (pos : nat) (n out : nat)
  : Linear T * nat :=
  (mkLinear n out
     (mkTensor [out; n] (map rng (seq pos (out * n))))
     (mkTensor [out] (map rng (seq (pos + out * n) out))),
   pos + out * n + out).

(** Layer [i] maps width [hidden_sizes[i-1]] (or [input_size] when [i = 0])
    to width [hidden_sizes[i]]. *)
Fixpoint hidden_init (rng : nat -> T) (pos : nat) (prev : nat)
    (hidden_sizes : list nat) : list (Linear T) * nat :=
  match hidden_sizes with
  | [] => ([], pos)
  | h :: hs =>
      let '(l, pos1) := Linear_init rng pos prev h in
      let '(ls, pos2) := hidden_init rng pos1 h hs in
      (l :: ls, pos2)
  end.

(** The width feeding the output layer: the last hidden width, or the
    input width when there is no hidden layer. *)
Definition last_width (input_size : nat) (hidden_sizes : list nat) : nat :=
  List.last hidden_sizes input_size.

(** The default dropout probability, 0.5. *)
Definition drop_p : T := s_div s_one (s_add s_one s_one).

(** Modelled from the spec: [fc_model.Network(input_size, output_size,
    hidden_layers)].  Construction never fails, also for an empty list of
    hidden widths. *)
Definition Network_init (rng : nat -> T) (pos : nat)
    (input_size output_size : nat) (hidden_sizes : list nat) : Network T :=
  let '(ls, pos1) := hidden_init rng pos input_size hidden_sizes in
  let '(out, _) :=
    Linear_init rng pos1 (last_width input_size hidden_sizes) output_size in
  mkNetwork ls out drop_p.

(** *** Forward pass *)

Definition Linear_forward (l : Linear T) (x : rows T) : result (rows T) :=
  F_linear (weight l) (bias l) x.

Fixpoint forward_hidden (training : bool) (p : T) (tape : nat -> bool)
    (pos : nat) (ls : list (Linear T)) (x : rows T) : result (rows T * nat) :=
  match ls with
  | [] => Ok (x, pos)
  | l :: ls' =>
      y <~ Linear_forward l x ;
      let '(z, pos') := dropout training p tape pos (relu y) in
      forward_hidden training p tape pos' ls' z
  end.

(** Modelled from the spec: [Network.forward].  For each hidden layer in
    order: affine map, ReLU, dropout (training mode only); then the output
    affine map and [log_softmax] over the output dimension.  Returns the
    output and the new position of the generator. *)
Definition forward (training : bool) (tape : nat -> bool) (pos : nat)
    (m : Network T) (x : rows T) : result (rows T * nat) :=
  hp <~ forward_hidden training (dropout_p m) tape pos (hidden_layers m) x ;
  y <~ Linear_forward (output m) hp.1 ;
  Ok (log_softmax y, hp.2).

(** *** State dicts *)

(** The parameters of a [Linear] registered under [prefix]. *)
Definition Linear_state (prefix : string) (l : Linear T) : StateDict T :=
  [(prefix +:+ "weight", weight l); (prefix +:+ "bias", bias l)].

(** The name of child [i] of a [ModuleList], as a prefix. *)
Definition child_prefix (prefix : string) (i : nat) : string :=
  prefix +:+ pretty i +:+ ".".

Fixpoint ModuleList_state (prefix : string) (i : nat) (ls : list (Linear T))
  : StateDict T :=
  match ls with
  | [] => []
  | l :: ls' =>
      Linear_state (child_prefix prefix i) l ++
      ModuleList_state prefix (S i) ls'
  end.

(** [model.state_dict()]: children in registration order; [dropout] has no
    parameters. *)
Definition state_dict (m : Network T) : StateDict T :=
  ModuleList_state "hidden_layers." 0 (hidden_layers m) ++
  Linear_state "output." (output m).

Definition keys {V} (d : list (string * V)) : list string := map fst d.

(** [d[key]] on a dictionary. *)
Fixpoint getitem {V} (d : list (string * V)) (key : string) : option V :=
  match d with
  | [] => None
  | (k, v) :: d' => if decide (k = key) then Some v else getitem d' key
  end.

(** *** load_state_dict *)

(** [param.copy_(input_param)]: the entries are overwritten, the shape of
    the parameter stays. *)
Definition copy_ (param input_param : Tensor T) : Tensor T :=
  mkTensor (shape param) (data input_param).

Inductive load_msg :=
| MissingKey (key : string)
| SizeMismatch (key : string) (ckpt_shape model_shape : list nat).

(** One parameter of [_load_from_state_dict]: a stored tensor of another
    shape is reported and skipped, one of the same shape is copied, a key
    that is not stored is reported missing. *)
Definition load_param (sd : StateDict T) (key : string) (param : Tensor T)
  : Tensor T * list load_msg :=
  match getitem sd key with
  | Some input_param =>
      if decide (shape input_param = shape param)
      then (copy_ param input_param, [])
      else (param, [SizeMismatch key (shape input_param) (shape param)])
  | None => (param, [MissingKey key])
  end.

Definition load_Linear (sd : StateDict T) (prefix : string) (l : Linear T)
  : Linear T * list load_msg :=
  let '(w, e1) := load_param sd (prefix +:+ "weight") (weight l) in
  let '(b, e2) := load_param sd (prefix +:+ "bias") (bias l) in
  (mkLinear (in_features l) (out_features l) w b, e1 ++ e2).

Fixpoint load_ModuleList (sd : StateDict T) (prefix : string) (i : nat)
    (ls : list (Linear T)) : list (Linear T) * list load_msg :=
  match ls with
  | [] => ([], [])
  | l :: ls' =>
      let '(l1, e1) := load_Linear sd (child_prefix prefix i) l in
      let '(ls1, e2) := load_ModuleList sd prefix (S i) ls' in
      (l1 :: ls1, e1 ++ e2)
  end.

Definition missing_of (msgs : list load_msg) : list string :=
  omap (fun e => match e with MissingKey k => Some k | _ => None end) msgs.

Definition mismatches_of (msgs : list load_msg) : list size_mismatch :=
  omap (fun e => match e with
                 | SizeMismatch k s1 s2 => Some (k, s1, s2)
                 | _ => None
                 end) msgs.

(** [model.load_state_dict(state_dict)] with [strict=True].  The model is
    updated in place, so it is returned also when the call raises. *)
Definition load_state_dict (m : Network T) (sd : StateDict T)
  : Network T * result unit :=
  let '(ls, e1) := load_ModuleList sd "hidden_layers." 0 (hidden_layers m) in
  let '(out, e2) := load_Linear sd "output." (output m) in
  let m' := mkNetwork ls out (dropout_p m) in
  let msgs := e1 ++ e2 in
  let unexpected :=
    filter (fun k => k ∉ keys (state_dict m)) (keys sd) in
  let report :=
    LoadReport (missing_of msgs) unexpected (mismatches_of msgs) in
  (m', match msgs, unexpected with
       | [], [] => Ok tt
       | _, _ => Raise (StateDictError report)
       end).

(** *** Part 6: the checkpoint *)

Definition torch_save (obj : pydict T) (path : string) (fs : filesystem T)
  : filesystem T :=
  <[path := obj]> fs.

Definition torch_load (fs : filesystem T) (path : string)
  : result (pydict T) :=
  match fs !! path with
  | Some obj => Ok obj
  | None => Raise (FileNotFoundError path)
  end.

(** Part 6, cell 11: the checkpoint dictionary built from [model]. *)
Definition checkpoint (model : Network T) : pydict T :=
  [("input_size", PyInt 784);
   ("output_size", PyInt 10);
   ("hidden_layers", PyIntList (map out_features (hidden_layers model)));
   ("state_dict", PyStateDict (state_dict model))].

Definition subscript (d : pydict T) (key : string) : result (pyval T) :=
  match getitem d key with
  | Some v => Ok v
  | None => Raise (KeyError key)
  end.

Definition as_int (field : string) (v : pyval T) : result nat :=
  match v with
  | PyInt n => Ok n
  | _ => Raise (TypeError field)
  end.

Definition as_int_list (field : string) (v : pyval T) : result (list nat) :=
  match v with
  | PyIntList l => Ok l
  | _ => Raise (TypeError field)
  end.

Definition as_state_dict (field : string) (v : pyval T)
  : result (StateDict T) :=
  match v with
  | PyStateDict sd => Ok sd
  | _ => Raise (TypeError field)
  end.

(** Part 6, cell 12.  The local [model] is lost when [load_state_dict]
    raises. *)
Definition load_checkpoint (rng : nat -> T) (pos : nat) (fs : filesystem T)
    (filepath : string) : result (Network T) :=
  checkpoint <~ torch_load fs filepath ;
  a <~ subscript checkpoint "input_size" ;
  b <~ subscript checkpoint "output_size" ;
  c <~ subscript checkpoint "hidden_layers" ;
  input_size <~ as_int "input_size" a ;
  output_size <~ as_int "output_size" b ;
  hidden <~ as_int_list "hidden_layers" c ;
  let model := Network_init rng pos input_size output_size hidden in
  d <~ subscript checkpoint "state_dict" ;
  sd <~ as_state_dict "state_dict" d ;
  let '(model', r) := load_state_dict model sd in
  _ <~ r ;
  Ok model'.

End Framework.

(** ** Part 3: the training loop *)

(** The entries of the [nn.Sequential] models of Part 3. *)
Inductive module (T : Type) :=
| MLinear (l : Linear T)
| MReLU
| MLogSoftmax.
Arguments MLinear {T} l.
Arguments MReLU {T}.
Arguments MLogSoftmax {T}.

Definition Sequential (T : Type) : Type := list (module T).

(** The output of [model(images)], with what autograd recorded: the model and
    the input it was computed from. *)
Record Output (T : Type) := mkOutput {
  out_value : rows T;
  out_graph : Sequential T * rows T
}.
Arguments mkOutput {T} out_value out_graph.
Arguments out_value {T} o.
Arguments out_graph {T} o.

(** The scalar [loss], with its graph. *)
Record Loss (T : Type) := mkLoss {
  item : T;
  loss_graph : Sequential T * rows T * list nat
}.
Arguments mkLoss {T} item loss_graph.
Arguments item {T} l.
Arguments loss_graph {T} l.

(** A batch of the loader: images and integer labels. *)
Definition Batch (T : Type) : Type := Tensor T * list nat.

(** [trainloader]: [shuffle=True] draws the batches anew for every pass over
    it, [len] does not change. *)
Record DataLoader (T : Type) := mkDataLoader {
  dl_batches : nat -> list (Batch T);
  dl_len : nat
}.
Arguments mkDataLoader {T} dl_batches dl_len.
Arguments dl_batches {T} d.
Arguments dl_len {T} d.

(** What the loop does, in the order it does it (ghost state). *)
Inductive Event (T : Type) :=
| EvView (images : Tensor T)
| EvZeroGrad
| EvForward
| EvLoss
| EvBackward
| EvStep
| EvAccumulate
| EvPrint.
Arguments EvView {T} images.
Arguments EvZeroGrad {T}.
Arguments EvForward {T}.
Arguments EvLoss {T}.
Arguments EvBackward {T}.
Arguments EvStep {T}.
Arguments EvAccumulate {T}.
Arguments EvPrint {T}.

(** The objects the cells of Part 3 share: the model, the [.grad] of each of
    its parameters (in the order of [model.parameters()]), what was printed,
    and the trace. *)
Record World (T : Type) := mkWorld {
  model : Sequential T;
  grads : list (option (Tensor T));
  stdout : list T;
  trace : list (Event T)
}.
Arguments mkWorld {T} model grads stdout trace.
Arguments model {T} w.
Arguments grads {T} w.
Arguments stdout {T} w.
Arguments trace {T} w.

(** A statement: it changes the world and returns or raises; what it changed
    before raising stays changed. *)
Definition M (T A : Type) : Type := World T -> World T * result A.

Definition mret {T A} (a : A) : M T A := fun w => (w, Ok a).

Definition mbind {T A B} (m : M T A) (k : A -> M T B) : M T B :=
  fun w =>
    match m w with
    | (w1, Ok a) => k a w1
    | (w1, Raise e) => (w1, Raise e)
    end.

Definition lift {T A} (r : result A) : M T A := fun w => (w, r).

Definition log {T} (e : Event T) : M T unit :=
  fun w => (mkWorld (model w) (grads w) (stdout w) (trace w ++ [e]), Ok tt).

Declare Scope stmt_scope.
Delimit Scope stmt_scope with stmt.
Notation "x <~ m ; k" := (mbind m (fun x => k))
  (at level 20, m at level 100, k at level 200, only parsing) : stmt_scope.
Notation "m ;; k" := (mbind m (fun _ => k))
  (at level 100, k at level 200, only parsing, right associativity)
  : stmt_scope.

Section Training.
Context {T : Type} {ST : Scalar T}.

(** The gradient of the loss with respect to [model.parameters()], as the
    autograd engine computes it from the graph of the loss. *)
Variable autograd : Sequential T * rows T * list nat -> list (Tensor T).

(** The learning rate of [optim.SGD]. *)
Variable lr : T.

(** *** Tensors *)

Definition numel (t : Tensor T) : nat := foldr Nat.mul 1 (shape t).

(** [images.view(images.shape[0], -1)]. *)
Definition view (images : Tensor T) : result (rows T) :=
  match shape images with
  | [] => Raise IndexError
  | b :: _ =>
      if decide (b = 0) then Raise ViewError
      else Ok (reshape (replicate b (numel images / b)) (data images))
  end.

Definition zeros_like (t : Tensor T) : Tensor T :=
  mkTensor (shape t) (map (fun _ => s_zero) (data t)).

Definition tensor_add (a d : Tensor T) : Tensor T :=
  mkTensor (shape a) (zip_with s_add (data a) (data d)).

(** *** The model and the criterion *)

Fixpoint Sequential_forward (ms : Sequential T) (x : rows T)
  : result (rows T) :=
  match ms with
  | [] => Ok x
  | MLinear l :: ms' => (y <~ Linear_forward l x ; Sequential_forward ms' y)
  | MReLU :: ms' => Sequential_forward ms' (relu x)
  | MLogSoftmax :: ms' => Sequential_forward ms' (log_softmax x)
  end.

(** Part 3, cells 3, 10 and 15: [nn.Sequential(nn.Linear(784, 128),
    nn.ReLU(), nn.Linear(128, 64), nn.ReLU(), nn.Linear(64, 10),
    nn.LogSoftmax(dim=1))], for any values of the three layers. *)
Definition part3_model (l1 l2 l3 : Linear T) : Sequential T :=
  [MLinear l1; MReLU; MLinear l2; MReLU; MLinear l3; MLogSoftmax].

(** [model.parameters()]. *)
Fixpoint parameters (ms : Sequential T) : list (Tensor T) :=
  match ms with
  | [] => []
  | MLinear l :: ms' => weight l :: bias l :: parameters ms'
  | _ :: ms' => parameters ms'
  end.

(** The model with its parameters replaced, in the same order. *)
Fixpoint with_parameters (ms : Sequential T) (ps : list (Tensor T))
  : Sequential T :=
  match ms with
  | [] => []
  | MLinear l :: ms' =>
      match ps with
      | w :: b :: ps' =>
          MLinear (mkLinear (in_features l) (out_features l) w b)
            :: with_parameters ms' ps'
      | _ => ms
      end
  | m :: ms' => m :: with_parameters ms' ps
  end.

(** [nn.NLLLoss()]: minus the mean, over the batch, of the entry of each row
    at its label. *)
Definition nll_loss (output : rows T) (labels : list nat) : result T :=
  if decide (length output = length labels) then
    picked <~ (fix pick (o : rows T) (ys : list nat) : result (list T) :=
                 match o, ys with
                 | r :: o', y :: ys' =>
                     match r !! y with
                     | Some a => (rest <~ pick o' ys' ; Ok (a :: rest))
                     | None => Raise TargetError
                     end
                 | _, _ => Ok []
                 end) output labels ;
    Ok (s_div (s_sub s_zero (sum_scalars picked))
              (s_of_nat (length output)))
  else Raise TargetError.

Local Open Scope stmt_scope.

(** *** The statements of the training pass *)

(** [optimizer.zero_grad()]: gradients that exist are set to zero. *)
Definition zero_grad : M T unit :=
  fun w =>
    (mkWorld (model w) (map (fmap zeros_like) (grads w)) (stdout w)
             (trace w ++ [EvZeroGrad]), Ok tt).

(** [output = model(images)]. *)
Definition call_model (x : rows T) : M T (Output T) :=
  fun w =>
    match Sequential_forward (model w) x with
    | Ok y =>
        (mkWorld (model w) (grads w) (stdout w) (trace w ++ [EvForward]),
         Ok (mkOutput y (model w, x)))
    | Raise e => (w, Raise e)
    end.

(** [loss = criterion(output, labels)]. *)
Definition criterion (output : Output T) (labels : list nat) : M T (Loss T) :=
  v <~ lift (nll_loss (out_value output) labels) ;
  log EvLoss ;;
  mret (mkLoss v (out_graph output, labels)).

(** Gradients are accumulated: a parameter without gradient receives the
    new one, the others have it added. *)
Definition accumulate (g : option (Tensor T)) (d : Tensor T)
  : option (Tensor T) :=
  match g with
  | None => Some d
  | Some a => Some (tensor_add a d)
  end.

(** [loss.backward()]. *)
Definition backward (loss : Loss T) : M T unit :=
  fun w =>
    (mkWorld (model w)
             (zip_with accumulate (grads w) (autograd (loss_graph loss)))
             (stdout w) (trace w ++ [EvBackward]), Ok tt).

(** One parameter of [optim.SGD(..., lr)]: [p - lr * p.grad], and nothing
    for a parameter without gradient. *)
Definition sgd (p : Tensor T) (g : option (Tensor T)) : Tensor T :=
  match g with
  | None => p
  | Some d =>
      mkTensor (shape p)
        (zip_with (fun a b => s_sub a (s_mul lr b)) (data p) (data d))
  end.

(** [optimizer.step()]. *)
Definition step : M T unit :=
  fun w =>
    (mkWorld
       (with_parameters (model w)
          (zip_with sgd (parameters (model w)) (grads w)))
       (grads w) (stdout w) (trace w ++ [EvStep]), Ok tt).

(** [print(...)] of a training loss. *)
Definition print (v : T) : M T unit :=
  fun w =>
    (mkWorld (model w) (grads w) (stdout w ++ [v]) (trace w ++ [EvPrint]),
     Ok tt).

(** [x / n] with an integer [n]. *)
Definition py_div (x : T) (n : nat) : result T :=
  if decide (n = 0) then Raise ZeroDivisionError
  else Ok (s_div x (s_of_nat n)).

(** Part 3, cell 13, lines 503-505 (and cell 15, lines 586-589): forward
    pass, loss, backward pass. *)
Definition backward_pass (x : rows T) (labels : list nat) : M T (Loss T) :=
  output <~ call_model x ;
  loss <~ criterion output labels ;
  backward loss ;;
  mret loss.

(** Part 3, cell 15: the body of the loop over [trainloader]; returns
    [loss.item()]. *)
Definition training_pass (b : Batch T) : M T T :=
  let '(images, labels) := b in
  x <~ lift (view images) ;
  log (EvView images) ;;
  zero_grad ;;
  loss <~ backward_pass x labels ;
  step ;;
  log EvAccumulate ;;
  mret (item loss).

(** [for images, labels in trainloader: ...; running_loss += loss.item()]. *)
Fixpoint for_batches (bs : list (Batch T)) (running_loss : T) : M T T :=
  match bs with
  | [] => mret running_loss
  | b :: bs' =>
      l <~ training_pass b ;
      for_batches bs' (s_add running_loss l)
  end.

(** The body of [for e in range(epochs)]: the [else] branch of the inner
    loop runs whenever the loop ends, also when it had nothing to do. *)
Definition epoch (trainloader : DataLoader T) (e : nat) : M T unit :=
  running_loss <~ for_batches (dl_batches trainloader e) s_zero ;
  mean <~ lift (py_div running_loss (dl_len trainloader)) ;
  print mean.

Fixpoint for_epochs (trainloader : DataLoader T) (e n : nat) : M T unit :=
  match n with
  | 0 => mret tt
  | S n' => epoch trainloader e ;; for_epochs trainloader (S e) n'
  end.

(** Part 3, cell 15, lines 577-594. *)
Definition train (trainloader : DataLoader T) (epochs : nat) : M T unit :=
  for_epochs trainloader 0 epochs.

(** *** Notions for the statements about the loop *)

(** The events of one training pass over a batch, in order. *)
Definition pass_events (b : Batch T) : list (Event T) :=
  [EvView b.1; EvZeroGrad; EvForward; EvLoss; EvBackward; EvStep;
   EvAccumulate].

(** The events of [n] epochs from epoch [e] on. *)
Definition epoch_events (trainloader : DataLoader T) (e n : nat)
  : list (Event T) :=
  concat (map (fun k => concat (map pass_events (dl_batches trainloader k))
                        ++ [EvPrint])
              (seq e n)).


(** Training passes over the batches [bs] in order, from world [w] to world
    [w'], with the values of [loss.item()] they return. *)
Inductive passes : list (Batch T) -> World T -> World T -> list T -> Prop :=
| passes_nil w : passes [] w w []
| passes_cons b bs w w1 w2 l ls :
    training_pass b w = (w1, Ok l) ->
    passes bs w1 w2 ls ->
    passes (b :: bs) w w2 (l :: ls).


(** Every gradient of [gs] that exists has as many entries as the new
    gradient of [ds] that is added to it. *)
Definition grads_fit (gs : list (option (Tensor T))) (ds : list (Tensor T))
  : Prop :=
  Forall2 (fun og d => match og with
                       | Some z => length (data z) = length (data d)
                       | None => True
                       end) gs ds.

End Training.

(** ** Auxiliary notions for the statements *)

Fixpoint last_char (s : string) (d : Ascii.ascii) : Ascii.ascii :=
  match s with
  | EmptyString => d
  | String a s' => last_char s' a
  end.

(** The two parameter names of a [Linear]. *)
Definition param_name (n : string) : Prop := n = "weight" \/ n = "bias".

Section Architecture.
Context {T : Type} {ST : Scalar T}.

(** A [Linear] from width [n] to width [out]: its attributes and the
    shapes of its two tensors. *)
Definition has_shape (n out : nat) (l : Linear T) : Prop :=
  in_features l = n /\ out_features l = out /\
  shape (weight l) = [out; n] /\ shape (bias l) = [out].

(** A stack of hidden layers fed with width [prev], of widths [hs]. *)
Fixpoint hidden_arch (prev : nat) (hs : list nat) (ls : list (Linear T))
  : Prop :=
  match hs, ls with
  | [], [] => True
  | h :: hs', l :: ls' => has_shape prev h l /\ hidden_arch h hs' ls'
  | _, _ => False
  end.

(** A model of architecture [(input_size, output_size, hidden_sizes)],
    whatever the values of its parameters. *)
Definition has_arch (input_size output_size : nat) (hidden_sizes : list nat)
    (m : Network T) : Prop :=
  hidden_arch input_size hidden_sizes (hidden_layers m) /\
  has_shape (last_width input_size hidden_sizes) output_size (output m) /\
  dropout_p m = drop_p.

(** A two-dimensional array of shape [(b, n)]. *)
Definition has_dims (b n : nat) (x : rows T) : Prop :=
  length x = b /\ Forall (fun r => length r = n) x.

(** The names in the state dict of a model with [k] hidden layers. *)
Definition state_keys (k : nat) : list string :=
  flat_map (fun i => ["hidden_layers." +:+ pretty i +:+ ".weight";
                      "hidden_layers." +:+ pretty i +:+ ".bias"])
           (seq 0 k)
  ++ ["output.weight"; "output.bias"].

(** What [load_state_dict] leaves in the parameter [p] named [k]: the
    stored tensor when [k] is stored with the shape of [p], and [p] itself
    otherwise. *)
Definition loaded_value (sd : StateDict T) (k : string) (p : Tensor T)
  : Tensor T :=
  match getitem sd k with
  | Some q => if decide (shape q = shape p) then q else p
  | None => p
  end.

(** The messages of [load_state_dict] for the parameters [d] of a model. *)
Definition load_messages (sd : StateDict T) (d : StateDict T)
  : list load_msg :=
  flat_map (fun kp => (load_param sd kp.1 kp.2).2) d.

End Architecture.

(** ** Concrete models for the examples *)

(** One input, one hidden unit, two classes. *)
Definition two_class_model : Network R :=
  mkNetwork
    [mkLinear 1 1 (mkTensor [1; 1] [1%R]) (mkTensor [1] [0%R])]
    (mkLinear 1 2 (mkTensor [2; 1] [1%R; 0%R]) (mkTensor [2] [0%R; 0%R]))
    drop_p.

(** A tape of the generator whose first bit keeps, and all others drop. *)
Definition first_only (k : nat) : bool := Nat.eqb k 0.





(** Two classes, two inputs; every pass over the loader gives two batches
    of one image of size 1x2. *)
Definition small_model : Sequential R :=
  [MLinear (mkLinear 2 2 (mkTensor [2; 2] [1%R; 0%R; 0%R; 1%R])
                     (mkTensor [2] [0%R; 0%R]));
   MReLU; MLogSoftmax].

Definition small_gradient (graph : Sequential R * rows R * list nat)
  : list (Tensor R) :=
  [mkTensor [2; 2] [1%R; 1%R; 1%R; 1%R]; mkTensor [2] [1%R; 1%R]].

Definition small_loader : DataLoader R :=
  mkDataLoader
    (fun _ => [(mkTensor [1; 1; 2] [1%R; 0%R], [0]);
               (mkTensor [1; 1; 2] [0%R; 1%R], [1])])
    2.

Definition small_world : World R := mkWorld small_model [None; None] [] [].

(** A loader over an empty data set. *)
Definition empty_loader : DataLoader R := mkDataLoader (fun _ => []) 0.

(** ** Part 6: the cells around the checkpoint *)

(** The variables that the cells of Part 6 share, and the files of
    checkpoints. *)
Record Session (T : Type) := mkSession {
  nb_model : Network T;
  nb_state_dict : StateDict T;
  nb_files : gmap string (pydict T)
}.
Arguments mkSession {T} nb_model nb_state_dict nb_files.
Arguments nb_model {T} s.
Arguments nb_state_dict {T} s.
Arguments nb_files {T} s.

Section Part6Cells.
Context {T : Type} {ST : Scalar T}.

(** Part 6, cells 7 to 9: [torch.save(model.state_dict(), 'checkpoint.pth')],
    [state_dict = torch.load('checkpoint.pth')],
    [model.load_state_dict(state_dict)].  The files here hold state dicts. *)
Definition reload_state_dict (model : Network T)
    (files : gmap string (StateDict T)) : Network T * result unit :=
  let files := <["checkpoint.pth" := state_dict model]> files in
  match files !! "checkpoint.pth" with
  | Some state_dict => load_state_dict model state_dict
  | None => (model, Raise (FileNotFoundError "checkpoint.pth"))
  end.

(** Part 6, cell 10: a model of other hidden widths, and the load that
    raises.  [model] is assigned before the call that raises. *)
Definition cell_10 (rng : nat -> T) (pos : nat) (s : Session T)
  : Session T * result unit :=
  let model := Network_init rng pos 784 10 [400; 200; 100] in
  let '(model', r) := load_state_dict model (nb_state_dict s) in
  (mkSession model' (nb_state_dict s) (nb_files s), r).

(** Part 6, cell 11. *)
Definition cell_11 (s : Session T) : Session T * result unit :=
  (mkSession (nb_model s) (nb_state_dict s)
     (torch_save (checkpoint (nb_model s)) "checkpoint.pth" (nb_files s)),
   Ok tt).

(** Part 6, cell 13: [model = load_checkpoint('checkpoint.pth')]; nothing is
    assigned when the call raises. *)
Definition cell_13 (rng : nat -> T) (pos : nat) (s : Session T)
  : Session T * result unit :=
  match load_checkpoint rng pos (nb_files s) "checkpoint.pth" with
  | Ok model => (mkSession model (nb_state_dict s) (nb_files s), Ok tt)
  | Raise e => (s, Raise e)
  end.

(** Cells 10, 11 and 13 run one after the other, as the execution counts of
    the notebook show; an exception ends its cell and not the session. *)
Definition cells_10_to_13 (rng10 : nat -> T) (pos10 : nat)
    (rng13 : nat -> T) (pos13 : nat) (s : Session T)
  : Session T * list (result unit) :=
  let '(s1, r10) := cell_10 rng10 pos10 s in
  let '(s2, r11) := cell_11 s1 in
  let '(s3, r13) := cell_13 rng13 pos13 s2 in
  (s3, [r10; r11; r13]).

(** *** Notions for the statements *)

(** The size mismatches of the hidden layers from child [j] on, when the
    stored widths are [A] (fed with width [pa]) and the widths of the model
    are [B] (fed with width [pb]). *)
Fixpoint hidden_mismatches (prefix : string) (j pa pb : nat)
    (A B : list nat) : list size_mismatch :=
  match A, B with
  | a :: A', b :: B' =>
      (child_prefix prefix j +:+ "weight", [a; pa], [b; pb])
        :: (child_prefix prefix j +:+ "bias", [a], [b])
        :: hidden_mismatches prefix (S j) a b A' B'
  | _, _ => []
  end.

(** The message of a size mismatch. *)
Definition mismatch_msg (x : size_mismatch) : load_msg :=
  SizeMismatch x.1.1 x.1.2 x.2.

(** The model with the bias of its output layer replaced. *)
Definition with_output_bias (m : Network T) (b : Tensor T) : Network T :=
  mkNetwork (hidden_layers m)
    (mkLinear (in_features (output m)) (out_features (output m))
              (weight (output m)) b)
    (dropout_p m).

End Part6Cells.

(** ** Part 3: notions for the training loop *)

Section Part3Shapes.
Context {T : Type} {ST : Scalar T}.

(** The width of the rows that a model returns for rows of width [n], when
    every [nn.Linear] of it is fed the width of its weight. *)
Fixpoint out_width (ms : Sequential T) (n : nat) : option nat :=
  match ms with
  | [] => Some n
  | MLinear l :: ms' =>
      if decide (nth 1 (shape (weight l)) 0 = n)
      then out_width ms' (nth 0 (shape (weight l)) 0)
      else None
  | _ :: ms' => out_width ms' n
  end.

(** A batch as the loader hands it to a model fed with rows of width [n]
    that tells [c] classes apart: at least one image, every image of [n]
    entries, one label below [c] per image. *)
Definition batch_fits (n c : nat) (b : Batch T) : Prop :=
  exists bsz rest,
    shape b.1 = bsz :: rest /\ bsz <> 0 /\ foldr Nat.mul 1 rest = n /\
    length (data b.1) = numel b.1 /\
    length b.2 = bsz /\ Forall (fun y => y < c) b.2.

End Part3Shapes.

(** ** Part 3: the other cells *)

Section Part3Cells.
Context {T : Type} {ST : Scalar T}.

(** [nn.CrossEntropyLoss()] (cell 2): the mean over the batch of
    [-x[class] + log (sum_j exp x[j])], on the scores [x] of each image. *)
Definition cross_entropy_loss (input : rows T) (target : list nat)
  : result T :=
  if decide (length input = length target) then
    losses <~ (fix each (o : rows T) (ys : list nat) : result (list T) :=
                 match o, ys with
                 | r :: o', y :: ys' =>
                     match r !! y with
                     | Some a =>
                         (rest <~ each o' ys' ;
                          Ok (s_add (s_sub s_zero a)
                                    (s_log (sum_scalars (map s_exp r)))
                                :: rest))
                     | None => Raise TargetError
                     end
                 | _, _ => Ok []
                 end) input target ;
    Ok (s_div (sum_scalars losses) (s_of_nat (length input)))
  else Raise TargetError.

(** Cells 2 and 3, lines 128-136 and 176-184: flatten the batch, run the
    model, apply the criterion. *)
Definition loss_of (criterion : rows T -> list nat -> result T)
    (model : Sequential T) (b : Batch T) : result T :=
  let '(images, labels) := b in
  images <~ view images ;
  logits <~ Sequential_forward model images ;
  criterion logits labels.

(** Cell 2, line 119: the model without [nn.LogSoftmax]. *)
Definition cell2_model (l1 l2 l3 : Linear T) : Sequential T :=
  [MLinear l1; MReLU; MLinear l2; MReLU; MLinear l3].





End Part3Cells.

(** ** Part 3: autograd on the small example (cells 4 to 9) *)

(** A tensor with the operation that created it, its [grad_fn]: a tensor
    made by the user with [requires_grad=True], a power [self ** exponent],
    or a mean [self.mean()]. *)
Inductive Var (T : Type) :=
| Leaf (value : Tensor T)
| PowBackward0 (self : Var T) (exponent : nat)
| MeanBackward0 (self : Var T).
Arguments Leaf {T} value.
Arguments PowBackward0 {T} self exponent.
Arguments MeanBackward0 {T} self.

Section Autograd.
Context {T : Type} {ST : Scalar T}.

Fixpoint s_pow (a : T) (k : nat) : T :=
  match k with
  | 0 => s_one
  | S k' => s_mul a (s_pow a k')
  end.

(** The value of a tensor, from the operations that created it. *)
Fixpoint value (v : Var T) : Tensor T :=
  match v with
  | Leaf t => t
  | PowBackward0 x k =>
      mkTensor (shape (value x)) (map (fun a => s_pow a k) (data (value x)))
  | MeanBackward0 x =>
      mkTensor [] [s_div (sum_scalars (data (value x)))
                         (s_of_nat (length (data (value x))))]
  end.

(** The backward pass through the operations that created [v]: the gradient
    [grad] that arrives at [v] is passed on to its input, multiplied by
    [exponent * self ** (exponent - 1)] by a power and spread evenly over
    the entries by a mean, until it reaches the leaf. *)
Fixpoint backprop (v : Var T) (grad : list T) : list T :=
  match v with
  | Leaf _ => grad
  | PowBackward0 x k =>
      backprop x
        (zip_with (fun g a => s_mul g (s_mul (s_of_nat k) (s_pow a (k - 1))))
                  grad (data (value x)))
  | MeanBackward0 x =>
      backprop x
        (map (fun _ => s_div (hd s_zero grad)
                             (s_of_nat (length (data (value x)))))
             (data (value x)))
  end.

(** [z.backward()] and then [x.grad] of the leaf [x]: the gradient is
    created implicitly, as one, for an output of one entry only; [None] is
    the [RuntimeError] for any other output. *)
Definition backward_grad (z : Var T) : option (list T) :=
  if decide (length (data (value z)) = 1) then Some (backprop z [s_one])
  else None.

(** Cells 5 and 6, lines 245 and 295: [y = x**2] and [z = y.mean()]. *)
Definition mean_of_squares (x : Tensor T) : Var T :=
  MeanBackward0 (PowBackward0 (Leaf x) 2).

End Autograd.

(** ** Part 3: the data (cell 1) *)

(** A picture of MNIST: the 28 x 28 pixels of a greyscale image, row after
    row, each an integer from 0 to 255. *)
Abbreviation Picture := (list nat) (only parsing).

(** [datasets.MNIST]: pictures with their labels. *)
Abbreviation MNIST := (list (list nat * nat)) (only parsing).

Section Data.
Context {T : Type} {ST : Scalar T}.

(** [transforms.ToTensor()]: one channel, every pixel divided by 255. *)
Definition ToTensor (pic : Picture) : Tensor T :=
  mkTensor [1; 28; 28]
           (map (fun p => s_div (s_of_nat p) (s_of_nat 255)) pic).

(** [transforms.Normalize((mean,), (std,))]: [(x - mean) / std] on the one
    channel. *)
Definition Normalize (mean std : T) (t : Tensor T) : Tensor T :=
  mkTensor (shape t) (map (fun a => s_div (s_sub a mean) std) (data t)).

(** The number [0.5]. *)
Definition half : T := s_div s_one (s_add s_one s_one).

(** Cell 1, lines 88-90: [transforms.Compose([transforms.ToTensor(),
    transforms.Normalize((0.5,), (0.5,))])]. *)
Definition transform (pic : Picture) : Tensor T :=
  Normalize half half (ToTensor pic).

(** [trainset[i]]: the transformed picture and its label. *)
Definition trainset_getitem (trainset : MNIST) (i : nat)
  : option (Tensor T * nat) :=
  match trainset !! i with
  | Some (pic, label) => Some (transform pic, label)
  | None => None
  end.

(** The batch sampler of a [DataLoader]: the indices of the sampler in
    order, [batch_size] at a time; what is left at the end makes a last,
    shorter batch ([drop_last] is [False]). *)
Fixpoint batch_sampler (batch_size : nat) (sampler : list nat)
    (batch : list nat) : list (list nat) :=
  match sampler with
  | [] => if decide (0 < length batch) then [batch] else []
  | idx :: sampler' =>
      let batch := batch ++ [idx] in
      if decide (length batch = batch_size)
      then batch :: batch_sampler batch_size sampler' []
      else batch_sampler batch_size sampler' batch
  end.

(** The default collate function: the images stacked along a new first
    dimension, the labels in a list. *)
Definition collate (samples : list (Tensor T * nat)) : Batch T :=
  (mkTensor (length samples :: [1; 28; 28])
            (concat (map (fun s => data s.1) samples)),
   map snd samples).

(** [torch.utils.data.DataLoader(trainset, batch_size, shuffle=True)]: for
    every pass [e] over it the random sampler draws a new order [shuffle e]
    of the indices of the data set (a permutation of them: the statements
    about the loader assume it, and only such indices are fetched); [len]
    is the number of batches, rounded up. *)
Definition DataLoader_init (trainset : MNIST) (batch_size : nat)
    (shuffle : nat -> list nat) : DataLoader T :=
  mkDataLoader
    (fun e => map (fun batch => collate (omap (trainset_getitem trainset)
                                              batch))
                  (batch_sampler batch_size (shuffle e) []))
    ((length trainset + batch_size - 1) / batch_size).

(** Cell 1, line 93. *)
Definition trainloader (trainset : MNIST) (shuffle : nat -> list nat)
  : DataLoader T :=
  DataLoader_init trainset 64 shuffle.

End Data.

(** ** Part 3: the single step of cell 13 *)

Section Part3Step.
Context {T : Type} {ST : Scalar T}.
Variable autograd : Sequential T * rows T * list nat -> list (Tensor T).

Local Open Scope stmt_scope.

(** [t.resize_(sizes)]: the entries are kept in their order, as many as
    the new size takes; a larger size is filled with what the new memory
    holds, [uninitialized]. *)
Definition resize_ (uninitialized : nat -> T) (t : Tensor T)
    (sizes : list nat) : Tensor T :=
  let n := foldr Nat.mul 1 sizes in
  mkTensor sizes
    (take n (data t)
     ++ map uninitialized (seq (length (data t)) (n - length (data t)))).

(** Cell 13, lines 496-505: the batch resized in place to 64 rows of 784
    entries, the gradients cleared, then the forward pass, the loss and the
    backward pass. *)
Definition single_step (uninitialized : nat -> T) (b : Batch T) : M T (Loss T) :=
  let '(images, labels) := b in
  let images := resize_ uninitialized images [64; 784] in
  zero_grad ;;
  backward_pass autograd (reshape (replicate 64 784) (data images)) labels.

End Part3Step.

(** ** Concrete data for the examples of Part 3 *)

(** A classifier of pictures with two classes, and a gradient of its
    shapes. *)
Definition picture_model : Sequential R :=
  [MLinear (mkLinear 784 2 (mkTensor [2; 784] (replicate 1568 0%R))
                     (mkTensor [2] [0%R; 0%R]));
   MLogSoftmax].

Definition picture_gradient (graph : Sequential R * rows R * list nat)
  : list (Tensor R) :=
  [mkTensor [2; 784] (replicate 1568 1%R); mkTensor [2] [1%R; 1%R]].

Definition picture_world : World R :=
  mkWorld picture_model [None; None] [] [].

(** Sixty-five black pictures of the class 1: one batch of 64 and a last
    batch of one. *)
Definition black_pictures : list (list nat * nat) :=
  replicate 65 (replicate 784 0, 1).

(** * Properties *)

(** ** Parameter names *)

Lemma string_app_nil t : "" +:+ t = t.
Proof. reflexivity. Qed.

Lemma string_app_cons a s t : String a s +:+ t = String a (s +:+ t).
Proof. reflexivity. Qed.

Lemma last_char_app s b t d : last_char (s +:+ String b t) d = last_char t b.
Proof.
  revert d. induction s as [|a s IH]; intros d.
  - by rewrite string_app_nil.
  - rewrite string_app_cons. simpl. apply IH.
Qed.

Lemma last_char_app_sep s c t d :
  last_char (s +:+ String c "" +:+ t) d = last_char t c.
Proof. apply last_char_app. Qed.

Lemma string_length_app s t :
  String.length (s +:+ t) = String.length s + String.length t.
Proof.
  induction s as [|a s IH]; [done|].
  rewrite string_app_cons. simpl. by rewrite IH.
Qed.

Lemma string_app_assoc s t u : (s +:+ t) +:+ u = s +:+ (t +:+ u).
Proof.
  induction s as [|a s IH]; [done|].
  rewrite !string_app_cons. by rewrite IH.
Qed.

Lemma string_app_inv_tail s1 s2 t : s1 +:+ t = s2 +:+ t -> s1 = s2.
Proof.
  revert s2. induction s1 as [|a s1 IH]; intros [|b s2] E.
  - done.
  - apply (f_equal String.length) in E.
    rewrite !string_length_app in E. simpl in E. lia.
  - apply (f_equal String.length) in E.
    rewrite !string_length_app in E. simpl in E. lia.
  - rewrite !string_app_cons in E. injection E as -> E. f_equal. by apply IH.
Qed.

(** Names under different children of a [ModuleList] are different, and so
    are the two names under one child. *)
Lemma child_key_inj prefix i j n1 n2 :
  param_name n1 -> param_name n2 ->
  child_prefix prefix i +:+ n1 = child_prefix prefix j +:+ n2 ->
  i = j /\ n1 = n2.
Proof.
  unfold child_prefix. intros H1 H2 E.
  rewrite !string_app_assoc in E. apply (inj _) in E.
  destruct H1 as [-> | ->], H2 as [-> | ->].
  - split; [|done]. apply string_app_inv_tail in E. by apply (inj pretty).
  - apply (f_equal (fun s => last_char s Ascii.zero)) in E.
    rewrite !last_char_app_sep in E. discriminate.
  - apply (f_equal (fun s => last_char s Ascii.zero)) in E.
    rewrite !last_char_app_sep in E. discriminate.
  - split; [|done]. apply string_app_inv_tail in E. by apply (inj pretty).
Qed.

Lemma hidden_key_not_output i n1 n2 :
  child_prefix "hidden_layers." i +:+ n1 <> "output." +:+ n2.
Proof. unfold child_prefix. rewrite !string_app_cons. discriminate. Qed.

(** ** Dictionaries *)

Section Dictionaries.
Context {V : Type}.
Implicit Types d : list (string * V).

Lemma getitem_app d1 d2 k :
  getitem (d1 ++ d2) k =
  match getitem d1 k with Some v => Some v | None => getitem d2 k end.
Proof.
  induction d1 as [|[k' v] d1 IH]; simpl; [done|].
  by case_decide.
Qed.

Lemma getitem_None d k : getitem d k = None <-> k ∉ keys d.
Proof.
  unfold keys. induction d as [|[k' v] d IH]; simpl.
  - split; [intros _; apply not_elem_of_nil | done].
  - rewrite not_elem_of_cons. case_decide; subst.
    + split; [done | intros [? _]; done].
    + rewrite IH. split; [by split | by intros [_ ?]].
Qed.

Lemma getitem_Some_elem d k v : getitem d k = Some v -> (k, v) ∈ d.
Proof.
  induction d as [|[k' v'] d IH]; simpl; [done|].
  case_decide; subst.
  - intros [= ->]. apply list_elem_of_here.
  - intros E. apply list_elem_of_further. auto.
Qed.
End Dictionaries.

(** ** State dicts *)

Section StateDicts.
Context {T : Type} {ST : Scalar T}.
Implicit Types (l : Linear T) (ls : list (Linear T)) (m : Network T).
Implicit Types sd : StateDict T.

Lemma keys_app {V} (d1 d2 : list (string * V)) :
  keys (d1 ++ d2) = keys d1 ++ keys d2.
Proof. apply map_app. Qed.

Lemma keys_ModuleList_state prefix i ls :
  keys (ModuleList_state prefix i ls) =
  flat_map (fun j => [child_prefix prefix j +:+ "weight";
                      child_prefix prefix j +:+ "bias"])
           (seq i (length ls)).
Proof.
  revert i. induction ls as [|l ls IH]; intros i; simpl; [done|].
  unfold keys in *. simpl. by rewrite IH.
Qed.

Lemma hidden_key_spelling i n :
  child_prefix "hidden_layers." i +:+ n =
  "hidden_layers." +:+ pretty i +:+ "." +:+ n.
Proof. unfold child_prefix. by rewrite !string_app_assoc. Qed.

Lemma keys_state_dict m :
  keys (state_dict m) = state_keys (length (hidden_layers m)).
Proof.
  unfold state_dict, state_keys. rewrite keys_app, keys_ModuleList_state.
  f_equal. apply flat_map_ext. intros j.
  by rewrite !hidden_key_spelling.
Qed.

(** Child [i + j] of the list is found under its own name. *)
Lemma getitem_child prefix i j ls l :
  ls !! j = Some l ->
  getitem (ModuleList_state prefix i ls)
          (child_prefix prefix (i + j) +:+ "weight") = Some (weight l) /\
  getitem (ModuleList_state prefix i ls)
          (child_prefix prefix (i + j) +:+ "bias") = Some (bias l).
Proof.
  revert i j. induction ls as [|l0 ls IH]; intros i j Hj; [done|].
  destruct j as [|j]; simpl in *.
  - injection Hj as ->. rewrite Nat.add_0_r.
    split; repeat case_decide; try done.
    exfalso.
    match goal with H : _ +:+ _ = _ +:+ _ |- _ =>
      apply child_key_inj in H as [_ ?]; [done | by left | by right] end.
  - assert (forall n1 n2, param_name n1 -> param_name n2 ->
              child_prefix prefix i +:+ n1 <>
              child_prefix prefix (i + S j) +:+ n2) as Hne.
    { intros n1 n2 H1 H2 E.
      apply child_key_inj in E as [? _]; [lia | done | done]. }
    replace (i + S j) with (S i + j) in * by lia.
    destruct (IH (S i) j Hj) as [Hw Hb].
    split; repeat case_decide; try done;
      exfalso; eapply Hne; try eassumption; (by left) || (by right).
Qed.

(** Names beyond the end of the list are not stored. *)
Lemma getitem_child_ge prefix i j ls n :
  param_name n -> length ls <= j ->
  getitem (ModuleList_state prefix i ls)
          (child_prefix prefix (i + j) +:+ n) = None.
Proof.
  intros Hn. revert i j. induction ls as [|l0 ls IH]; intros i j Hj; [done|].
  simpl in *. destruct j as [|j]; [lia|].
  repeat case_decide.
  - match goal with H : _ +:+ _ = _ +:+ _ |- _ =>
      apply child_key_inj in H as [? _]; [lia | by left | done] end.
  - match goal with H : _ +:+ _ = _ +:+ _ |- _ =>
      apply child_key_inj in H as [? _]; [lia | by right | done] end.
  - replace (i + S j) with (S i + j) by lia. apply IH. lia.
Qed.

Lemma getitem_hidden_skip i ls n :
  getitem (ModuleList_state "hidden_layers." i ls) ("output." +:+ n) = None.
Proof.
  revert i. induction ls as [|l0 ls IH]; intros i; [done|].
  simpl. repeat case_decide;
    try (exfalso; eapply hidden_key_not_output; eassumption).
  apply IH.
Qed.

Lemma getitem_state_dict_hidden m j l :
  hidden_layers m !! j = Some l ->
  getitem (state_dict m) (child_prefix "hidden_layers." j +:+ "weight")
    = Some (weight l) /\
  getitem (state_dict m) (child_prefix "hidden_layers." j +:+ "bias")
    = Some (bias l).
Proof.
  intros Hj. unfold state_dict. rewrite !getitem_app.
  destruct (getitem_child "hidden_layers." 0 j _ _ Hj) as [Hw Hb].
  simpl in Hw, Hb. by rewrite Hw, Hb.
Qed.

Lemma getitem_state_dict_output m :
  getitem (state_dict m) "output.weight" = Some (weight (output m)) /\
  getitem (state_dict m) "output.bias" = Some (bias (output m)).
Proof.
  unfold state_dict. rewrite !getitem_app.
  change "output.weight" with ("output." +:+ "weight").
  change "output.bias" with ("output." +:+ "bias").
  rewrite !getitem_hidden_skip. simpl.
  split; repeat case_decide; done.
Qed.

End StateDicts.

(** ** Construction and architecture *)

Section ArchitectureFacts.
Context {T : Type} {ST : Scalar T}.
Implicit Types (l : Linear T) (ls : list (Linear T)) (m : Network T).

Lemma hidden_init_arch (rng : nat -> T) pos prev hs :
  hidden_arch prev hs (hidden_init rng pos prev hs).1.
Proof.
  revert pos prev. induction hs as [|h hs IH]; intros pos prev; simpl; [done|].
  specialize (IH (pos + h * prev + h) h).
  destruct (hidden_init rng (pos + h * prev + h) h hs) as [ls pos2].
  simpl in *. split; [by repeat split | done].
Qed.

Lemma Network_init_arch (rng : nat -> T) pos i o hs :
  has_arch i o hs (Network_init rng pos i o hs).
Proof.
  unfold Network_init, has_arch.
  pose proof (hidden_init_arch rng pos i hs) as Hh.
  destruct (hidden_init rng pos i hs) as [ls pos1]. simpl in *.
  split; [done|]. split; [by repeat split | done].
Qed.

Lemma hidden_arch_length prev hs ls :
  hidden_arch prev hs ls -> length ls = length hs.
Proof.
  revert prev ls. induction hs as [|h hs IH]; intros prev [|l ls] H;
    simpl in *; try done.
  destruct H as [_ H]. f_equal. eauto.
Qed.

Lemma hidden_arch_out_features prev hs ls :
  hidden_arch prev hs ls -> map out_features ls = hs.
Proof.
  revert prev ls. induction hs as [|h hs IH]; intros prev [|l ls] H;
    simpl in *; try done.
  destruct H as [(_ & <- & _) H]. f_equal. eauto.
Qed.

End ArchitectureFacts.

(** ** Loading a state dict *)

Section Loading.
Context {T : Type} {ST : Scalar T}.
Implicit Types (l : Linear T) (ls : list (Linear T)) (m : Network T).
Implicit Types (sd : StateDict T) (p q : Tensor T).

Lemma copy__same_shape p q : shape q = shape p -> copy_ p q = q.
Proof. destruct q. unfold copy_. simpl. by intros ->. Qed.

Lemma load_param_found sd k p q :
  getitem sd k = Some q -> shape q = shape p ->
  load_param sd k p = (q, []).
Proof.
  intros Hk Hs. unfold load_param. rewrite Hk.
  case_decide; [|done]. by rewrite copy__same_shape.
Qed.

Lemma load_Linear_same sd prefix n o l0 l :
  has_shape n o l0 -> has_shape n o l ->
  getitem sd (prefix +:+ "weight") = Some (weight l) ->
  getitem sd (prefix +:+ "bias") = Some (bias l) ->
  load_Linear sd prefix l0 = (l, []).
Proof.
  intros (Hi0 & Ho0 & Hw0 & Hb0) (Hi & Ho & Hw & Hb) Gw Gb.
  unfold load_Linear.
  rewrite (load_param_found _ _ _ _ Gw) by congruence.
  rewrite (load_param_found _ _ _ _ Gb) by congruence.
  destruct l. simpl in *. by subst.
Qed.

Lemma load_ModuleList_same sd prefix i prev hs ls0 ls :
  hidden_arch prev hs ls0 -> hidden_arch prev hs ls ->
  (forall j l, ls !! j = Some l ->
     getitem sd (child_prefix prefix (i + j) +:+ "weight") = Some (weight l)
     /\ getitem sd (child_prefix prefix (i + j) +:+ "bias") = Some (bias l)) ->
  load_ModuleList sd prefix i ls0 = (ls, []).
Proof.
  revert i prev ls0 ls.
  induction hs as [|h hs IH]; intros i prev [|l0 ls0] [|l ls] H0 H G;
    simpl in *; try done.
  destruct H0 as [S0 H0], H as [S1 H].
  destruct (G 0 l eq_refl) as [Gw Gb]. rewrite Nat.add_0_r in Gw, Gb.
  rewrite (load_Linear_same _ _ _ _ _ _ S0 S1 Gw Gb).
  rewrite (IH (S i) h ls0 ls H0 H); [done|].
  intros j l' Hj. replace (S i + j) with (i + S j) by lia.
  by apply (G (S j)).
Qed.

Lemma filter_not_elem_self (ks : list string) :
  filter (fun k => k ∉ ks) ks = [].
Proof.
  destruct (filter (fun k => k ∉ ks) ks) as [|k r] eqn:E; [done|].
  assert (k ∈ filter (fun k => k ∉ ks) ks) as H
    by (rewrite E; apply list_elem_of_here).
  apply list_elem_of_filter in H as [H1 H2]. done.
Qed.

(** Loading the state dict of a model into a model of the same
    architecture succeeds and makes the two models equal. *)
Lemma load_state_dict_same_arch i o hs m0 m :
  has_arch i o hs m0 -> has_arch i o hs m ->
  load_state_dict m0 (state_dict m) = (m, Ok tt).
Proof.
  intros (Hh0 & Ho0 & Hp0) (Hh & Ho & Hp).
  unfold load_state_dict.
  rewrite (load_ModuleList_same _ _ 0 _ _ _ _ Hh0 Hh)
    by (intros j l Hj; by apply getitem_state_dict_hidden).
  destruct (getitem_state_dict_output m) as [Gw Gb].
  rewrite (load_Linear_same _ "output." _ _ _ _ Ho0 Ho Gw Gb).
  rewrite !keys_state_dict.
  rewrite (hidden_arch_length _ _ _ Hh0), <- (hidden_arch_length _ _ _ Hh).
  rewrite filter_not_elem_self. simpl.
  destruct m. simpl in *. by rewrite Hp0, Hp.
Qed.

End Loading.

(** ** What a load leaves behind, and what it reports *)

Section LoadCharacterised.
Context {T : Type} {ST : Scalar T}.
Implicit Types (l : Linear T) (ls : list (Linear T)) (m : Network T).
Implicit Types (sd : StateDict T) (p q : Tensor T).

Lemma load_param_value sd k p : (load_param sd k p).1 = loaded_value sd k p.
Proof.
  unfold load_param, loaded_value. destruct (getitem sd k) as [q|]; [|done].
  case_decide; [|done]. by apply copy__same_shape.
Qed.

Lemma load_Linear_spec sd prefix l :
  Linear_state prefix (load_Linear sd prefix l).1 =
    map (fun kp => (kp.1, loaded_value sd kp.1 kp.2)) (Linear_state prefix l)
  /\ (load_Linear sd prefix l).2 = load_messages sd (Linear_state prefix l).
Proof.
  unfold load_Linear, load_messages, Linear_state. simpl.
  rewrite <- !load_param_value.
  destruct (load_param sd (prefix +:+ "weight") (weight l)) as [w e1].
  destruct (load_param sd (prefix +:+ "bias") (bias l)) as [b e2].
  simpl. by rewrite app_nil_r.
Qed.

Lemma load_ModuleList_spec sd prefix i ls :
  ModuleList_state prefix i (load_ModuleList sd prefix i ls).1 =
    map (fun kp => (kp.1, loaded_value sd kp.1 kp.2))
        (ModuleList_state prefix i ls)
  /\ (load_ModuleList sd prefix i ls).2 =
     load_messages sd (ModuleList_state prefix i ls).
Proof.
  revert i. induction ls as [|l ls IH]; intros i; [done|].
  cbn [load_ModuleList ModuleList_state].
  destruct (load_Linear_spec sd (child_prefix prefix i) l) as [H1 H2].
  destruct (IH (S i)) as [H3 H4].
  destruct (load_Linear sd (child_prefix prefix i) l) as [l1 e1].
  destruct (load_ModuleList sd prefix (S i) ls) as [ls1 e2].
  cbn [fst snd ModuleList_state] in *.
  unfold load_messages in *.
  rewrite map_app, flat_map_app. by rewrite H1, H2, H3, H4.
Qed.

(** The model after [load_state_dict], and whether the call raises. *)
Lemma load_state_dict_spec m sd :
  state_dict (load_state_dict m sd).1 =
    map (fun kp => (kp.1, loaded_value sd kp.1 kp.2)) (state_dict m)
  /\ (load_state_dict m sd).2 =
     match load_messages sd (state_dict m),
           filter (fun k => k ∉ keys (state_dict m)) (keys sd) with
     | [], [] => Ok tt
     | msgs, unexpected =>
         Raise (StateDictError
                  (LoadReport (missing_of msgs) unexpected
                              (mismatches_of msgs)))
     end.
Proof.
  unfold load_state_dict.
  destruct (load_ModuleList_spec sd "hidden_layers." 0 (hidden_layers m))
    as [H1 H2].
  destruct (load_Linear_spec sd "output." (output m)) as [H3 H4].
  destruct (load_ModuleList sd "hidden_layers." 0 (hidden_layers m))
    as [ls e1].
  destruct (load_Linear sd "output." (output m)) as [out e2].
  cbn [fst snd] in *.
  assert (load_messages sd (state_dict m) = e1 ++ e2) as E.
  { unfold state_dict, load_messages in *. rewrite flat_map_app.
    by rewrite H2, H4. }
  split.
  - unfold state_dict. cbn [hidden_layers output].
    by rewrite map_app, H1, H3.
  - rewrite E. destruct (e1 ++ e2); [|done].
    by destruct (filter _ _).
Qed.

(** *** The outcome does not depend on the values being overwritten *)

Lemma load_param_indep sd k p1 p2 :
  shape p1 = shape p2 ->
  (load_param sd k p1).2 = (load_param sd k p2).2 /\
  ((load_param sd k p1).2 = [] ->
   (load_param sd k p1).1 = (load_param sd k p2).1).
Proof.
  intros Hs. unfold load_param. destruct (getitem sd k) as [q|];
    [|by split].
  rewrite <- Hs. case_decide; simpl; [|by split].
  split; [done|]. intros _. unfold copy_. by rewrite Hs.
Qed.

Lemma load_Linear_indep sd prefix n o l1 l2 :
  has_shape n o l1 -> has_shape n o l2 ->
  (load_Linear sd prefix l1).2 = (load_Linear sd prefix l2).2 /\
  ((load_Linear sd prefix l1).2 = [] ->
   (load_Linear sd prefix l1).1 = (load_Linear sd prefix l2).1).
Proof.
  intros (Hi1 & Ho1 & Hw1 & Hb1) (Hi2 & Ho2 & Hw2 & Hb2).
  unfold load_Linear.
  destruct (load_param_indep sd (prefix +:+ "weight") (weight l1) (weight l2))
    as [Ew Vw]; [congruence|].
  destruct (load_param_indep sd (prefix +:+ "bias") (bias l1) (bias l2))
    as [Eb Vb]; [congruence|].
  destruct (load_param sd (prefix +:+ "weight") (weight l1)) as [w1 e1].
  destruct (load_param sd (prefix +:+ "bias") (bias l1)) as [b1 e2].
  destruct (load_param sd (prefix +:+ "weight") (weight l2)) as [w2 e3].
  destruct (load_param sd (prefix +:+ "bias") (bias l2)) as [b2 e4].
  simpl in *. subst e3 e4. split; [done|].
  intros [-> ->]%app_eq_nil. rewrite Vw, Vb by done. congruence.
Qed.

Lemma load_ModuleList_indep sd prefix i prev hs ls1 ls2 :
  hidden_arch prev hs ls1 -> hidden_arch prev hs ls2 ->
  (load_ModuleList sd prefix i ls1).2 = (load_ModuleList sd prefix i ls2).2 /\
  ((load_ModuleList sd prefix i ls1).2 = [] ->
   (load_ModuleList sd prefix i ls1).1 = (load_ModuleList sd prefix i ls2).1).
Proof.
  revert i prev ls1 ls2.
  induction hs as [|h hs IH]; intros i prev [|l1 ls1] [|l2 ls2] H1 H2;
    simpl in H1, H2; try done.
  destruct H1 as [S1 H1], H2 as [S2 H2].
  cbn [load_ModuleList].
  destruct (load_Linear_indep sd (child_prefix prefix i) _ _ _ _ S1 S2)
    as [El Vl].
  destruct (IH (S i) h ls1 ls2 H1 H2) as [Els Vls].
  destruct (load_Linear sd (child_prefix prefix i) l1) as [a1 e1].
  destruct (load_Linear sd (child_prefix prefix i) l2) as [a2 e2].
  destruct (load_ModuleList sd prefix (S i) ls1) as [r1 f1].
  destruct (load_ModuleList sd prefix (S i) ls2) as [r2 f2].
  simpl in *. subst e2 f2. split; [done|].
  intros [-> ->]%app_eq_nil. by rewrite Vl, Vls.
Qed.

Lemma load_state_dict_indep i o hs m1 m2 sd :
  has_arch i o hs m1 -> has_arch i o hs m2 ->
  (load_state_dict m1 sd).2 = (load_state_dict m2 sd).2 /\
  ((load_state_dict m1 sd).2 = Ok tt ->
   (load_state_dict m1 sd).1 = (load_state_dict m2 sd).1).
Proof.
  intros (Hh1 & Ho1 & Hp1) (Hh2 & Ho2 & Hp2).
  unfold load_state_dict.
  rewrite !keys_state_dict.
  rewrite (hidden_arch_length _ _ _ Hh1), (hidden_arch_length _ _ _ Hh2).
  destruct (load_ModuleList_indep sd "hidden_layers." 0 _ _ _ _ Hh1 Hh2)
    as [Eh Vh].
  destruct (load_Linear_indep sd "output." _ _ _ _ Ho1 Ho2) as [Eo Vo].
  destruct (load_ModuleList sd "hidden_layers." 0 (hidden_layers m1))
    as [a1 e1].
  destruct (load_ModuleList sd "hidden_layers." 0 (hidden_layers m2))
    as [a2 e2].
  destruct (load_Linear sd "output." (output m1)) as [b1 f1].
  destruct (load_Linear sd "output." (output m2)) as [b2 f2].
  simpl in *. subst e2 f2.
  destruct (e1 ++ f1) eqn:E.
  - apply app_eq_nil in E as [-> ->].
    rewrite Vh, Vo, Hp1, Hp2 by done.
    destruct (filter _ _); by split.
  - by split.
Qed.

End LoadCharacterised.

(** ** Part 6: checkpoints *)

Section Checkpoints.
Context {T : Type} {ST : Scalar T}.
Implicit Types (l : Linear T) (ls : list (Linear T)) (m : Network T).
Implicit Types (sd : StateDict T) (fs : filesystem T).



(** C8. The checkpoint of Part 6 is one dictionary with exactly the four
    fields [input_size] (an integer), [output_size] (an integer),
    [hidden_layers] (a list of integers) and [state_dict]; for a model
    with [k] hidden layers the state dict has exactly the keys
    [hidden_layers.<i>.weight], [hidden_layers.<i>.bias] for [i < k],
    then [output.weight] and [output.bias], and each key is mapped to the
    weight or bias tensor of that layer. *)
Theorem checkpoint_layout m :
  keys (checkpoint m) =
    ["input_size"; "output_size"; "hidden_layers"; "state_dict"] /\
  (exists a b hs,
     getitem (checkpoint m) "input_size" = Some (PyInt a) /\
     getitem (checkpoint m) "output_size" = Some (PyInt b) /\
     getitem (checkpoint m) "hidden_layers" = Some (PyIntList hs) /\
     length hs = length (hidden_layers m)) /\
  getitem (checkpoint m) "state_dict" = Some (PyStateDict (state_dict m)) /\
  keys (state_dict m) = state_keys (length (hidden_layers m)) /\
  (forall i l, hidden_layers m !! i = Some l ->
     getitem (state_dict m) ("hidden_layers." +:+ pretty i +:+ ".weight")
       = Some (weight l) /\
     getitem (state_dict m) ("hidden_layers." +:+ pretty i +:+ ".bias")
       = Some (bias l)) /\
  getitem (state_dict m) "output.weight" = Some (weight (output m)) /\
  getitem (state_dict m) "output.bias" = Some (bias (output m)).
Proof.
  split; [done|]. split.
  { exists 784, 10, (map out_features (hidden_layers m)).
    repeat split; try done. apply length_map. }
  split; [done|]. split; [apply keys_state_dict|]. split.
  - intros i l Hi.
    pose proof (getitem_state_dict_hidden m i l Hi) as H.
    by rewrite !hidden_key_spelling in H.
  - apply getitem_state_dict_output.
Qed.


(** C10.  The result of [load_checkpoint] does not depend on the random
    initialisation of the model it constructs: two loads of the same file,
    from any two generators, give the same result, so two models that are
    loaded have equal parameters and equal evaluation-mode outputs; and in a
    loaded model every parameter holds the tensor stored under its name in
    the state dict of the checkpoint (none keeps its initial value). *)
Theorem load_checkpoint_init_independent
    (rng1 rng2 : nat -> T) pos1 pos2 fs path :
  load_checkpoint rng1 pos1 fs path = load_checkpoint rng2 pos2 fs path /\
  (forall m1 m2,
     load_checkpoint rng1 pos1 fs path = Ok m1 ->
     load_checkpoint rng2 pos2 fs path = Ok m2 ->
     state_dict m1 = state_dict m2 /\
     forall tape p x,
       forward false tape p m1 x = forward false tape p m2 x) /\
  (forall m1 (ckpt : pydict T) sd,
     load_checkpoint rng1 pos1 fs path = Ok m1 ->
     fs !! path = Some ckpt ->
     getitem ckpt "state_dict" = Some (PyStateDict sd) ->
     forall k p, (k, p) ∈ state_dict m1 -> getitem sd k = Some p).
Proof.
  assert (load_checkpoint rng1 pos1 fs path =
          load_checkpoint rng2 pos2 fs path) as E.
  { unfold load_checkpoint.
    destruct (torch_load fs path) as [ckpt|e]; simpl; [|done].
    destruct (subscript ckpt "input_size") as [a|e]; simpl; [|done].
    destruct (subscript ckpt "output_size") as [b|e]; simpl; [|done].
    destruct (subscript ckpt "hidden_layers") as [c|e]; simpl; [|done].
    destruct (as_int "input_size" a) as [i|e]; simpl; [|done].
    destruct (as_int "output_size" b) as [o|e]; simpl; [|done].
    destruct (as_int_list "hidden_layers" c) as [hs|e]; simpl; [|done].
    destruct (subscript ckpt "state_dict") as [d|e]; simpl; [|done].
    destruct (as_state_dict "state_dict" d) as [sd|e]; simpl; [|done].
    destruct (load_state_dict_indep i o hs
                (Network_init rng1 pos1 i o hs)
                (Network_init rng2 pos2 i o hs) sd) as [Er Vr];
      [apply Network_init_arch..|].
    destruct (load_state_dict (Network_init rng1 pos1 i o hs) sd)
      as [m1 r1].
    destruct (load_state_dict (Network_init rng2 pos2 i o hs) sd)
      as [m2 r2].
    simpl in *. subst r2. destruct r1 as [[]|e]; simpl; [|done].
    by rewrite Vr. }
  split; [done|]. split.
  - intros m1 m2 H1 H2. rewrite E, H2 in H1. by injection H1 as ->.
  - clear E. intros m1 ckpt sd Hload Hfs Hsd k p Hin.
    unfold load_checkpoint, torch_load, subscript in Hload.
    rewrite Hfs in Hload. simpl in Hload.
    destruct (getitem ckpt "input_size") as [a|]; simpl in Hload; [|done].
    destruct (getitem ckpt "output_size") as [b|]; simpl in Hload; [|done].
    destruct (getitem ckpt "hidden_layers") as [c|]; simpl in Hload;
      [|done].
    destruct (as_int "input_size" a) as [i|e]; simpl in Hload; [|done].
    destruct (as_int "output_size" b) as [o|e]; simpl in Hload; [|done].
    destruct (as_int_list "hidden_layers" c) as [hs|e]; simpl in Hload;
      [|done].
    rewrite Hsd in Hload. simpl in Hload.
    destruct (load_state_dict_spec (Network_init rng1 pos1 i o hs) sd)
      as [Hst Hres].
    destruct (load_state_dict (Network_init rng1 pos1 i o hs) sd)
      as [m' r]. simpl in *.
    destruct r as [[]|e]; simpl in Hload; [|done].
    injection Hload as ->.
    rewrite Hst in Hin. apply list_elem_of_fmap in Hin as [[k0 p0] [[= -> ->] Hin]].
    simpl.
    destruct (load_messages sd _) as [|msg msgs] eqn:Hm in Hres;
      [|done].
    assert ((load_param sd k0 p0).2 = []) as Hk.
    { unfold load_messages in Hm.
      destruct (load_param sd k0 p0).2 as [|e es] eqn:He; [done|].
      exfalso.
      assert (e ∈ flat_map (fun kp => (load_param sd kp.1 kp.2).2)
                    (state_dict (Network_init rng1 pos1 i o hs))) as Habs.
      { apply list_elem_of_In, in_flat_map. exists (k0, p0).
        split; [by apply list_elem_of_In|]. simpl. rewrite He. by left. }
      rewrite Hm in Habs. by apply elem_of_nil in Habs. }
    unfold load_param, loaded_value in *.
    destruct (getitem sd k0) as [q|]; [|done].
    by case_decide.
Qed.

End Checkpoints.

(** ** Loading into another architecture *)

Section OtherArchitecture.
Context {T : Type} {ST : Scalar T}.
Implicit Types (l : Linear T) (ls : list (Linear T)) (m : Network T).
Implicit Types (sd : StateDict T) (p q : Tensor T).

Lemma getitem_state_dict_hidden_ge m j n :
  param_name n -> length (hidden_layers m) <= j ->
  getitem (state_dict m) (child_prefix "hidden_layers." j +:+ n) = None.
Proof.
  intros Hn Hj. unfold state_dict. rewrite getitem_app.
  pose proof (getitem_child_ge "hidden_layers." 0 j _ n Hn Hj) as H.
  simpl in H. rewrite H.
  simpl. repeat case_decide; try done;
    exfalso; eapply hidden_key_not_output; eauto.
Qed.

Lemma hidden_arch_lookup_size prev hs ls j h :
  hidden_arch prev hs ls -> hs !! j = Some h ->
  exists l n, ls !! j = Some l /\ has_shape n h l.
Proof.
  revert prev ls j. induction hs as [|h0 hs IH]; intros prev [|l0 ls] j H Hj;
    simpl in *; try done.
  destruct H as [H0 H]. destruct j as [|j]; simpl in *.
  - injection Hj as ->. eauto.
  - eauto.
Qed.

Lemma list_neq_lookup (A B : list nat) :
  length A = length B -> A <> B ->
  exists j a b, A !! j = Some a /\ B !! j = Some b /\ a <> b.
Proof.
  revert B. induction A as [|a A IH]; intros [|b B] Hl Hne;
    simpl in *; try done.
  destruct (decide (a = b)) as [->|Hab].
  - destruct (IH B) as (j & x & y & ? & ? & ?); [lia | congruence |].
    by exists (S j), x, y.
  - by exists 0, a, b.
Qed.

Lemma load_messages_nonempty sd (d : StateDict T) k p :
  (k, p) ∈ d -> (load_param sd k p).2 <> [] -> load_messages sd d <> [].
Proof.
  intros Hin Hne E. apply Hne.
  destruct (load_param sd k p).2 as [|e es] eqn:He; [done|]. exfalso.
  assert (e ∈ load_messages sd d) as Habs.
  { apply list_elem_of_In, in_flat_map. exists (k, p).
    split; [by apply list_elem_of_In|]. simpl. rewrite He. by left. }
  rewrite E in Habs. by apply elem_of_nil in Habs.
Qed.

Lemma state_dict_hidden_elem m j l :
  hidden_layers m !! j = Some l ->
  (child_prefix "hidden_layers." j +:+ "weight", weight l) ∈ state_dict m.
Proof.
  intros Hj. apply getitem_Some_elem.
  by apply getitem_state_dict_hidden.
Qed.

(** With the same input and output widths and different hidden widths,
    some key is missing, unexpected, or stored with another shape. *)
Lemma load_finds_disagreement i o A B mA mB :
  has_arch i o A mA -> has_arch i o B mB -> A <> B ->
  load_messages (state_dict mA) (state_dict mB) <> [] \/
  filter (fun k => k ∉ keys (state_dict mB)) (keys (state_dict mA)) <> [].
Proof.
  intros (HA & _ & _) (HB & _ & _) Hne.
  pose proof (hidden_arch_length _ _ _ HA) as LA.
  pose proof (hidden_arch_length _ _ _ HB) as LB.
  destruct (decide (length A = length B)) as [Hl|Hl].
  - destruct (list_neq_lookup A B Hl Hne) as (j & a & b & Ha & Hb & Hab).
    destruct (hidden_arch_lookup_size _ _ _ _ _ HA Ha)
      as (lA & nA & HlA & _ & _ & HwA & _).
    destruct (hidden_arch_lookup_size _ _ _ _ _ HB Hb)
      as (lB & nB & HlB & _ & _ & HwB & _).
    left. eapply load_messages_nonempty;
      [by apply state_dict_hidden_elem|].
    unfold load_param.
    destruct (getitem_state_dict_hidden mA j lA HlA) as [-> _].
    rewrite HwA, HwB. case_decide; [congruence | done].
  - destruct (decide (length A < length B)) as [Hlt|Hge].
    + destruct (lookup_lt_is_Some_2 (hidden_layers mB) (length A))
        as [lB HlB]; [lia|].
      left. eapply load_messages_nonempty;
        [by apply state_dict_hidden_elem|].
      unfold load_param.
      rewrite getitem_state_dict_hidden_ge; [done | by left | lia].
    + destruct (lookup_lt_is_Some_2 (hidden_layers mA) (length B))
        as [lA HlA]; [lia|].
      right. intros E.
      set (k := child_prefix "hidden_layers." (length B) +:+ "weight") in *.
      assert (k ∈ filter (fun k => k ∉ keys (state_dict mB))
                    (keys (state_dict mA))) as Habs.
      { apply list_elem_of_filter. split.
        - apply getitem_None.
          apply getitem_state_dict_hidden_ge; [by left | lia].
        - destruct (decide (k ∈ keys (state_dict mA))) as [|Hn]; [done|].
          apply getitem_None in Hn.
          destruct (getitem_state_dict_hidden mA _ lA HlA) as [Hw _].
          fold k in Hw. congruence. }
      rewrite E in Habs. by apply elem_of_nil in Habs.
Qed.

(** C2, as amended.  Loading the state dict of a model with hidden widths
    [A] into a model built with the same input and output widths and
    other hidden widths [B] always raises the error of [load_state_dict];
    the error lists every parameter whose stored shape disagrees, with
    both shapes; no tensor is reshaped, truncated or padded: after the
    call every parameter of the model is either what it was or, when its
    name is stored with exactly its shape, the stored tensor.  Parameters
    that agree in name and shape are therefore overwritten before the
    error is raised. *)
Theorem load_state_dict_other_hidden_sizes i o A B mA mB :
  has_arch i o A mA -> has_arch i o B mB -> A <> B ->
  exists r,
    (load_state_dict mB (state_dict mA)).2 = Raise (StateDictError r) /\
    (forall k p q,
       (k, p) ∈ state_dict mB -> getitem (state_dict mA) k = Some q ->
       shape q <> shape p ->
       (k, shape q, shape p) ∈ size_mismatches r) /\
    state_dict (load_state_dict mB (state_dict mA)).1 =
      map (fun kp => (kp.1, loaded_value (state_dict mA) kp.1 kp.2))
          (state_dict mB).
Proof.
  intros HA HB Hne.
  destruct (load_state_dict_spec mB (state_dict mA)) as [Hst Hres].
  exists (LoadReport
            (missing_of (load_messages (state_dict mA) (state_dict mB)))
            (filter (fun k => k ∉ keys (state_dict mB))
                    (keys (state_dict mA)))
            (mismatches_of (load_messages (state_dict mA) (state_dict mB)))).
  split; [|split; [|done]].
  - rewrite Hres.
    destruct (load_finds_disagreement i o A B mA mB HA HB Hne) as [H|H].
    + by destruct (load_messages _ _).
    + destruct (load_messages _ _); [|done]. by destruct (filter _ _).
  - intros k p q Hin Hq Hs. simpl. unfold mismatches_of.
    apply list_elem_of_omap.
    exists (SizeMismatch k (shape q) (shape p)). split; [|done].
    apply list_elem_of_In, in_flat_map. exists (k, p).
    split; [by apply list_elem_of_In|]. simpl.
    unfold load_param. rewrite Hq. case_decide; [done|]. by left.
Qed.

End OtherArchitecture.

(** ** The forward pass *)

Section Forward.
Context {T : Type} {ST : Scalar T}.
Implicit Types (l : Linear T) (ls : list (Linear T)) (m : Network T).
Implicit Types (x y : rows T) (r : list T).


Lemma relu_dims x bsz n : has_dims bsz n x -> has_dims bsz n (relu x).
Proof.
  intros [Hb Hx]. split; [by unfold relu; rewrite length_map|].
  apply Forall_fmap. eapply Forall_impl; [exact Hx|].
  intros r Hr. simpl. by rewrite length_map.
Qed.

Lemma log_softmax_dims x bsz n :
  has_dims bsz n x -> has_dims bsz n (log_softmax x).
Proof.
  intros [Hb Hx]. split; [by unfold log_softmax; rewrite length_map|].
  apply Forall_fmap. eapply Forall_impl; [exact Hx|].
  intros r Hr. simpl. unfold log_softmax_row. by rewrite length_map.
Qed.




Lemma last_width_cons prev h hs :
  last_width prev (h :: hs) = last_width h hs.
Proof.
  unfold last_width. revert prev h.
  induction hs as [|a hs IH]; intros prev h; [done|].
  change (List.last (h :: a :: hs) prev) with (List.last (a :: hs) prev).
  by rewrite (IH prev a), (IH h a).
Qed.




Lemma reshape_replicate_dims {A} b n (l : list A) :
  length l = b * n ->
  length (reshape (replicate b n) l) = b /\
  Forall (fun row => length row = n) (reshape (replicate b n) l).
Proof.
  revert l. induction b as [|b IH]; intros l Hl; simpl; [by split|].
  destruct (IH (drop n l)) as [H1 H2]; [rewrite length_drop; lia|].
  split; [by rewrite H1|].
  apply Forall_cons. split; [rewrite length_take; lia | done].
Qed.

(** Flattening a batch of [b] images keeps one row per image, with all the
    entries of the image. *)
Lemma view_dims (images : Tensor T) b rest :
  shape images = b :: rest -> b <> 0 ->
  length (data images) = numel images ->
  exists x, view images = Ok x /\ has_dims b (foldr Nat.mul 1 rest) x.
Proof.
  intros Hs Hb Hl. unfold view. rewrite Hs. case_decide; [done|].
  eexists. split; [done|].
  unfold numel in *. rewrite Hs in *. simpl in *.
  rewrite Nat.mul_comm, Nat.div_mul by done.
  apply reshape_replicate_dims. lia.
Qed.

(** In evaluation mode the generator is not read. *)
Lemma forward_hidden_eval (p : T) tape1 pos1 tape2 pos2 ls x :
  match forward_hidden false p tape1 pos1 ls x,
        forward_hidden false p tape2 pos2 ls x with
  | Ok (y1, p1), Ok (y2, p2) => y1 = y2 /\ p1 = pos1 /\ p2 = pos2
  | Raise e1, Raise e2 => e1 = e2
  | _, _ => False
  end.
Proof.
  revert x. induction ls as [|l ls IH]; intros x; simpl; [done|].
  destruct (Linear_forward l x) as [y|e]; simpl; [apply IH | done].
Qed.

Lemma forward_eval tape1 pos1 tape2 pos2 m x :
  match forward false tape1 pos1 m x, forward false tape2 pos2 m x with
  | Ok (y1, p1), Ok (y2, p2) => y1 = y2 /\ p1 = pos1 /\ p2 = pos2
  | Raise e1, Raise e2 => e1 = e2
  | _, _ => False
  end.
Proof.
  unfold forward.
  pose proof (forward_hidden_eval (dropout_p m) tape1 pos1 tape2 pos2
                (hidden_layers m) x) as H.
  destruct (forward_hidden false _ tape1 pos1 _ x) as [[y1 p1]|e1];
    destruct (forward_hidden false _ tape2 pos2 _ x) as [[y2 p2]|e2];
    simpl in *; try done.
  destruct H as (-> & -> & ->).
  by destruct (Linear_forward (output m) y2).
Qed.

(** Every activation draws its own bit of the tape. *)
Lemma dropout_row_lookup (p : T) tape pos r k a :
  r !! k = Some a ->
  dropout_row p tape pos r !! k = Some (dropout_elem p (tape (pos + k)) a).
Proof.
  revert pos k. induction r as [|b r IH]; intros pos k Hk; [done|].
  destruct k as [|k]; simpl in *.
  - injection Hk as ->. by rewrite Nat.add_0_r.
  - rewrite (IH (S pos) k Hk). do 3 f_equal. lia.
Qed.

End Forward.

(** ** Log-probabilities over the real numbers *)

Section Normalisation.
Local Open Scope R_scope.
Implicit Types (r : list R) (x y : rows R) (m : Network R).

Lemma sum_exp_nonneg r : 0 <= sum_scalars (map exp r).
Proof.
  induction r as [|a r IH]; simpl; [lra|].
  pose proof (exp_pos a). lra.
Qed.

Lemma sum_exp_pos r : r <> [] -> 0 < sum_scalars (map exp r).
Proof.
  destruct r as [|a r]; [done|]. intros _. simpl.
  pose proof (exp_pos a). pose proof (sum_exp_nonneg r). lra.
Qed.





End Normalisation.

(** ** Evaluation mode and training mode *)

Section Modes.
Local Open Scope R_scope.

Lemma log_softmax_pair_gap a b :
  ln (exp a / (exp a + (exp b + 0))) - ln (exp b / (exp a + (exp b + 0)))
  = a - b.
Proof.
  pose proof (exp_pos a) as Ha. pose proof (exp_pos b) as Hb.
  set (s := exp a + (exp b + 0)).
  assert (0 < / s) as Hs by (apply Rinv_0_lt_compat; unfold s; lra).
  unfold Rdiv. rewrite !ln_mult by done.
  rewrite !ln_exp. lra.
Qed.

(** With probability one half the surviving activations are doubled. *)
Lemma dropout_elem_half (a : R) :
  dropout_elem drop_p true a = 2 * a /\ dropout_elem drop_p false a = 0.
Proof. unfold dropout_elem, drop_p. simpl. split; [field | done]. Qed.

(** C9.  In evaluation mode [forward] does not read the generator: two
    calls on the same input give the same output (or the same error),
    whatever the state of the generator, and leave the generator where it
    was.  In training mode every hidden activation draws its own bit and
    is either set to zero or multiplied by [1 / (1 - p)], which is 2 for
    [p = 0.5]; and two calls in a row on the same input can give
    different outputs. *)
Theorem eval_mode_deterministic :
  (forall (T : Type) (ST : Scalar T) (m : Network T) (x : rows T)
          tape1 pos1 tape2 pos2,
     match forward false tape1 pos1 m x, forward false tape2 pos2 m x with
     | Ok (y1, p1), Ok (y2, p2) => y1 = y2 /\ p1 = pos1 /\ p2 = pos2
     | Raise e1, Raise e2 => e1 = e2
     | _, _ => False
     end) /\
  (forall (T : Type) (ST : Scalar T) (p : T) tape pos (r : list T) k a,
     r !! k = Some a ->
     dropout_row p tape pos r !! k =
     Some (if tape (pos + k)%nat
           then s_mul a (s_div s_one (s_sub s_one p)) else s_zero)) /\
  (forall a : R,
     dropout_elem drop_p true a = 2 * a /\
     dropout_elem drop_p false a = 0) /\
  (exists (m : Network R) (x : rows R) tape y1 p1 y2 p2,
     has_arch 1 2 [1%nat] m /\
     forward true tape 0 m x = Ok (y1, p1) /\
     forward true tape p1 m x = Ok (y2, p2) /\
     y1 <> y2).
Proof.
  split; [intros; apply forward_eval|].
  split; [intros; by apply dropout_row_lookup|].
  split; [apply dropout_elem_half|].
  exists two_class_model, [[1]], first_only.
  eexists _, _, _, _. split; [by repeat split|].
  split; [cbv -[exp ln Rplus Rmult Rdiv Rminus Rmax IZR]; reflexivity|].
  split; [cbv -[exp ln Rplus Rmult Rdiv Rminus Rmax IZR]; reflexivity|].
  intros E. injection E as E1 E2.
  pose proof (log_softmax_pair_gap
                (Rmax 0 (1 * 1 + 0 + 0) * (1 / (1 - 1 / (1 + 1))) * 1 + 0 + 0)
                (Rmax 0 (1 * 1 + 0 + 0) * (1 / (1 - 1 / (1 + 1))) * 0 + 0 + 0))
    as G1.
  pose proof (log_softmax_pair_gap (0 * 1 + 0 + 0) (0 * 0 + 0 + 0)) as G2.
  rewrite E1, E2, G2 in G1.
  rewrite Rmax_right in G1 by lra.
  assert (1 / (1 - 1 / (1 + 1)) = 2) as H2 by field.
  rewrite H2 in G1. lra.
Qed.


End Modes.

(** ** Part 3: the order of the statements *)

Section TraceFacts.
Context {T : Type} {ST : Scalar T}.
Variable autograd : Sequential T * rows T * list nat -> list (Tensor T).
Variable lr : T.

















End TraceFacts.

(** ** Part 3: the running loss and the report of an epoch *)

Section EpochFacts.
Context {T : Type} {ST : Scalar T}.
Variable autograd : Sequential T * rows T * list nat -> list (Tensor T).
Variable lr : T.

(** A training pass prints nothing. *)
Lemma training_pass_stdout b w :
  stdout (training_pass autograd lr b w).1 = stdout w.
Proof.
  destruct b as [images labels].
  unfold training_pass, backward_pass, criterion, call_model, mbind, lift.
  destruct (view images) as [x|e]; simpl; [|done].
  destruct (Sequential_forward (model w) x) as [y|e]; simpl; [|done].
  destruct (nll_loss y labels) as [v|e]; simpl; done.
Qed.

Lemma passes_stdout bs w w' losses :
  passes autograd lr bs w w' losses -> stdout w' = stdout w.
Proof.
  induction 1 as [|b bs w w1 w2 l ls Hb _ IH]; [done|].
  rewrite IH. pose proof (training_pass_stdout b w) as H.
  by rewrite Hb in H.
Qed.

(** The inner loop returns the losses of its batches, added one after the
    other to the value [running_loss] had before it. *)
Lemma for_batches_passes bs running_loss w w' v :
  for_batches autograd lr bs running_loss w = (w', Ok v) ->
  exists losses,
    passes autograd lr bs w w' losses /\
    v = fold_left s_add losses running_loss.
Proof.
  revert running_loss w. induction bs as [|b bs IH]; intros running_loss w H.
  - injection H as <- <-. exists []. split; [constructor | done].
  - cbn [for_batches] in H. unfold mbind in H.
    destruct (training_pass autograd lr b w) as [w1 [l|e]] eqn:Hb; [|done].
    destruct (IH _ _ H) as (losses & Hp & ->).
    exists (l :: losses). split; [by econstructor | done].
Qed.

Lemma epoch_report trainloader e w w' :
  epoch autograd lr trainloader e w = (w', Ok tt) ->
  exists wm losses,
    passes autograd lr (dl_batches trainloader e) w wm losses /\
    dl_len trainloader <> 0 /\
    stdout w' =
    stdout w ++ [s_div (fold_left s_add losses s_zero)
                       (s_of_nat (dl_len trainloader))].
Proof.
  unfold epoch, mbind, lift, py_div. intros H.
  destruct (for_batches autograd lr (dl_batches trainloader e) s_zero w)
    as [wm [v|err]] eqn:Hb; [|done].
  destruct (for_batches_passes _ _ _ _ _ Hb) as (losses & Hp & ->).
  case_decide; [done|]. unfold print in H. injection H as <-.
  exists wm, losses. simpl. split; [done|]. split; [done|].
  by rewrite (passes_stdout _ _ _ _ Hp).
Qed.

Lemma for_epochs_reports trainloader e n w w' :
  for_epochs autograd lr trainloader e n w = (w', Ok tt) ->
  length (stdout w') = length (stdout w) + n.
Proof.
  revert e w. induction n as [|n IH]; intros e w H.
  - injection H as <-. lia.
  - cbn [for_epochs] in H. unfold mbind in H.
    destruct (epoch autograd lr trainloader e w) as [w1 [[]|err]] eqn:He;
      [|done].
    apply epoch_report in He as (wm & losses & _ & _ & Hs).
    rewrite (IH _ _ H), Hs, length_app. simpl. lia.
Qed.

(** C7.  An epoch that completes prints exactly one record: the mean
    training loss [running_loss / len(trainloader)], where [running_loss]
    starts from zero in that epoch and has added to it, in order, the losses
    of the batches of that epoch and nothing else.  A run of [epochs] epochs
    that completes has printed [epochs] records. *)
Theorem epoch_summary trainloader :
  (forall e w w',
     epoch autograd lr trainloader e w = (w', Ok tt) ->
     exists wm losses,
       passes autograd lr (dl_batches trainloader e) w wm losses /\
       dl_len trainloader <> 0 /\
       stdout w' =
       stdout w ++ [s_div (fold_left s_add losses s_zero)
                          (s_of_nat (dl_len trainloader))]) /\
  (forall epochs w w',
     train autograd lr trainloader epochs w = (w', Ok tt) ->
     length (stdout w') = length (stdout w) + epochs).
Proof.
  split; [apply epoch_report|]. intros epochs w w'. apply for_epochs_reports.
Qed.

(** C5, as amended.  The loop has no guard: with an empty loader the first
    epoch runs no training pass and then divides [running_loss = 0] by
    [len(trainloader) = 0]; the [ZeroDivisionError] ends the run, nothing is
    printed and nothing else has changed. *)
Theorem train_empty_loader trainloader epochs w :
  dl_len trainloader = 0 -> dl_batches trainloader 0 = [] -> 0 < epochs ->
  train autograd lr trainloader epochs w = (w, Raise ZeroDivisionError).
Proof.
  intros Hlen Hb He. destruct epochs as [|n]; [lia|].
  unfold train. cbn [for_epochs]. unfold mbind, epoch, mbind, lift, py_div.
  rewrite Hb, Hlen. done.
Qed.

End EpochFacts.

(** ** Part 3: gradients accumulate *)

Section GradientFacts.
Local Open Scope R_scope.
Variable autograd : Sequential R * rows R * list nat -> list (Tensor R).


Lemma zip_with_zero_l (zs ds : list R) :
  Forall (fun a => a = 0) zs -> length zs = length ds ->
  zip_with Rplus zs ds = ds.
Proof.
  revert ds. induction zs as [|z zs IH]; intros [|d ds] Hz Hl;
    simpl in *; try done.
  apply Forall_cons in Hz as [-> Hz]. rewrite IH by (done || lia).
  f_equal. lra.
Qed.






End GradientFacts.

(** The loss of a classifier with one class is zero for all parameters: its
    gradient is zero. *)
Lemma one_class_loss_constant (l : Linear R) n x labels y v :
  shape (weight l) = [1; n] ->
  Sequential_forward [MLinear l; MLogSoftmax] x = Ok y ->
  nll_loss y labels = Ok v ->
  v = 0%R.
Proof.
  intros Hs Hy Hv. simpl in Hy. unfold Linear_forward, F_linear in Hy.
  destruct (list_find _ x); [by destruct p|]. simpl in Hy.
  injection Hy as <-.
  assert (Forall (fun r => r = [0%R])
            (log_softmax (map (linear_row (weight l) (bias l)) x))) as Hrows.
  { unfold log_softmax. apply Forall_fmap, Forall_fmap, Forall_true.
    intros r. simpl. unfold linear_row. rewrite Hs. simpl.
    unfold log_softmax_row. simpl. f_equal.
    set (a := (dot r _ + _)%R). pose proof (exp_pos a).
    replace (exp a / (exp a + 0))%R with 1%R by (field; lra).
    apply ln_1. }
  unfold nll_loss in Hv. case_decide; [|done].
  revert Hv Hrows.
  generalize (log_softmax (map (linear_row (weight l) (bias l)) x)) as o.
  intros o.
  generalize (s_of_nat (length o)) as c. intros c. simpl.
  match goal with |- context [rbind (?f o labels)] => set (pick := f) end.
  intros Hv Hrows.
  assert (forall o' ys picked,
            Forall (fun r => r = [0%R]) o' -> pick o' ys = Ok picked ->
            sum_scalars picked = 0%R) as Hpick.
  { induction o' as [|r o' IH]; intros ys picked Ho Hp.
    - simpl in Hp. injection Hp as <-. done.
    - destruct ys as [|yl ys]; simpl in Hp; [by injection Hp as <-|].
      apply Forall_cons in Ho as [-> Ho].
      destruct yl as [|yl]; simpl in Hp; [|done].
      destruct (pick o' ys) as [rest|e] eqn:Hrest; simpl in Hp; [|done].
      injection Hp as <-. simpl. rewrite (IH ys rest Ho Hrest). lra. }
  destruct (pick o labels) as [picked|e] eqn:Hp; simpl in Hv; [|done].
  injection Hv as <-. rewrite (Hpick _ _ _ Hrows Hp).
  unfold Rdiv. lra.
Qed.

(** ** Part 6 at concrete models *)



(** Loading the state dict of a model with hidden widths [3; 2] into one
    with hidden widths [2; 2] raises, reports the disagreeing shapes and
    leaves all of them untouched. *)
Lemma load_state_dict_other_hidden_sizes_witness :
  let mA := Network_init (fun _ => 1%R) 0 4 3 [3; 2] in
  let mB := Network_init (fun _ => 0%R) 0 4 3 [2; 2] in
  (has_arch 4 3 [3; 2] mA /\ has_arch 4 3 [2; 2] mB /\ [3; 2] <> [2; 2]) /\
  exists r,
    (load_state_dict mB (state_dict mA)).2 = Raise (StateDictError r) /\
    (forall k p q,
       (k, p) ∈ state_dict mB -> getitem (state_dict mA) k = Some q ->
       shape q <> shape p ->
       (k, shape q, shape p) ∈ size_mismatches r) /\
    state_dict (load_state_dict mB (state_dict mA)).1 =
      map (fun kp => (kp.1, loaded_value (state_dict mA) kp.1 kp.2))
          (state_dict mB).
Proof.
  intros mA mB.
  assert (has_arch 4 3 [3; 2] mA) as HA by (vm_compute; repeat split).
  assert (has_arch 4 3 [2; 2] mB) as HB by (vm_compute; repeat split).
  assert ([3; 2] <> [2; 2]) as Hne by discriminate.
  split; [by repeat split|].
  apply (load_state_dict_other_hidden_sizes 4 3 [3; 2] [2; 2] mA mB HA HB Hne).
Defined.

(** Counterexample to C2 as stated (the cell of Part 6 that raises, at small
    widths): the load raises, and yet the model is not what it was.  The
    bias of [output] and the bias of the second hidden layer have the same
    shape in both architectures and hold the values of the checkpoint when
    the error is raised. *)
Lemma load_state_dict_partial_copy :
  let mA := Network_init (fun _ => 1%R) 0 4 3 [3; 2] in
  let mB := Network_init (fun _ => 0%R) 0 4 3 [2; 2] in
  let r := load_state_dict mB (state_dict mA) in
  r.2 = Raise (StateDictError
                 (LoadReport [] []
                    [("hidden_layers.0.weight", [3; 4], [2; 4]);
                     ("hidden_layers.0.bias", [3], [2]);
                     ("hidden_layers.1.weight", [2; 3], [2; 2])])) /\
  bias (output mB) = mkTensor [3] [0; 0; 0]%R /\
  bias (output r.1) = mkTensor [3] [1; 1; 1]%R /\
  r.1 <> mB.
Proof.
  intros mA mB r. split; [vm_compute; reflexivity|].
  split; [vm_compute; reflexivity|]. split; [vm_compute; reflexivity|].
  intros E. apply (f_equal (fun m => data (bias (output m)))) in E.
  vm_compute in E. injection E as E _ _. by apply R1_neq_R0.
Qed.

(** ** Part 3 at concrete models *)

(** Counterexample to C5 as stated: the loop of cell 15 ([epochs = 5]) over a
    loader without batches is ended by the division in the first epoch; no
    guard skips the report or prints something else. *)
Lemma train_empty_loader_raises :
  train small_gradient (3 / 1000)%R empty_loader 5 small_world =
  (small_world, Raise ZeroDivisionError).
Proof. vm_compute. reflexivity. Qed.

(** The same run, from the theorem: a loader of length zero without
    batches, and five epochs. *)
Lemma train_empty_loader_witness :
  (dl_len empty_loader = 0 /\ dl_batches empty_loader 0 = [] /\ 0 < 5) /\
  train small_gradient (3 / 1000)%R empty_loader 5 small_world =
  (small_world, Raise ZeroDivisionError).
Proof.
  assert (dl_len empty_loader = 0) as H1 by reflexivity.
  assert (dl_batches empty_loader 0 = []) as H2 by reflexivity.
  assert (0 < 5) as H3 by lia.
  split; [exact (conj H1 (conj H2 H3))|].
  apply (train_empty_loader small_gradient (3 / 1000)%R empty_loader 5
           small_world H1 H2 H3).
Defined.

(** Two epochs over two batches each: both complete, and each prints one
    mean of two losses. *)
Lemma epoch_summary_witness :
  let lr := (3 / 1000)%R in
  let w1 := (epoch small_gradient lr small_loader 0 small_world).1 in
  let w2 := (train small_gradient lr small_loader 2 small_world).1 in
  (epoch small_gradient lr small_loader 0 small_world = (w1, Ok tt) /\
   train small_gradient lr small_loader 2 small_world = (w2, Ok tt)) /\
  (exists wm losses,
     passes small_gradient lr (dl_batches small_loader 0) small_world wm
            losses /\
     dl_len small_loader <> 0 /\
     stdout w1 =
     stdout small_world ++ [s_div (fold_left s_add losses s_zero)
                                  (s_of_nat (dl_len small_loader))]) /\
  length (stdout w2) = length (stdout small_world) + 2.
Proof.
  intros lr w1 w2.
  assert (epoch small_gradient lr small_loader 0 small_world = (w1, Ok tt))
    as He by (vm_compute; reflexivity).
  assert (train small_gradient lr small_loader 2 small_world = (w2, Ok tt))
    as Ht by (vm_compute; reflexivity).
  split; [exact (conj He Ht)|]. split.
  - exact (proj1 (epoch_summary small_gradient lr small_loader)
                 0 small_world w1 He).
  - exact (proj2 (epoch_summary small_gradient lr small_loader)
                 2 small_world w2 Ht).
Defined.

(** The run of the two epochs above returns, with the trace of C4. *)
Lemma train_small_trace :
  let out := train small_gradient (3 / 1000)%R small_loader 2 small_world in
  out.2 = Ok tt /\ trace out.1 = epoch_events small_loader 0 2.
Proof. split; vm_compute; reflexivity. Qed.



(** * Further properties *)

(** ** Part 6: a model and its own state dict *)

Section OwnStateDict.
Context {T : Type} {ST : Scalar T}.
Implicit Types (l : Linear T) (ls : list (Linear T)) (m : Network T).
Implicit Types (sd : StateDict T) (p q : Tensor T).

Lemma load_Linear_self sd prefix l :
  getitem sd (prefix +:+ "weight") = Some (weight l) ->
  getitem sd (prefix +:+ "bias") = Some (bias l) ->
  load_Linear sd prefix l = (l, []).
Proof.
  intros Gw Gb. unfold load_Linear.
  rewrite (load_param_found _ _ _ _ Gw eq_refl).
  rewrite (load_param_found _ _ _ _ Gb eq_refl).
  by destruct l.
Qed.

Lemma load_ModuleList_self sd prefix i ls :
  (forall j l, ls !! j = Some l ->
     getitem sd (child_prefix prefix (i + j) +:+ "weight") = Some (weight l)
     /\ getitem sd (child_prefix prefix (i + j) +:+ "bias") = Some (bias l)) ->
  load_ModuleList sd prefix i ls = (ls, []).
Proof.
  revert i. induction ls as [|l ls IH]; intros i G; [done|].
  cbn [load_ModuleList].
  destruct (G 0 l eq_refl) as [Gw Gb]. rewrite Nat.add_0_r in Gw, Gb.
  rewrite (load_Linear_self _ _ _ Gw Gb).
  rewrite (IH (S i)); [done|].
  intros j l' Hj. replace (S i + j) with (i + S j) by lia.
  by apply (G (S j)).
Qed.

Lemma load_state_dict_self m : load_state_dict m (state_dict m) = (m, Ok tt).
Proof.
  unfold load_state_dict.
  rewrite (load_ModuleList_self _ _ 0)
    by (intros j l Hj; by apply getitem_state_dict_hidden).
  destruct (getitem_state_dict_output m) as [Gw Gb].
  rewrite (load_Linear_self _ "output." _ Gw Gb).
  rewrite filter_not_elem_self. by destruct m.
Qed.

(** X1.  Cells 7 to 9 of Part 6: a state dict written to a file, read back
    and loaded into the model it came from matches all keys, whatever the
    architecture and the values of the model and whatever was in the file
    before, and leaves the model as it was. *)
Theorem reload_state_dict_matches m (files : gmap string (StateDict T)) :
  reload_state_dict m files = (m, Ok tt).
Proof.
  unfold reload_state_dict. rewrite lookup_insert_eq.
  apply load_state_dict_self.
Qed.

(** *** The architecture is never changed by a load *)

Lemma load_param_shape sd k p : shape (load_param sd k p).1 = shape p.
Proof.
  unfold load_param. destruct (getitem sd k) as [q|]; [|done].
  by case_decide.
Qed.

Lemma load_Linear_shape sd prefix n o l :
  has_shape n o l -> has_shape n o (load_Linear sd prefix l).1.
Proof.
  intros (Hi & Ho & Hw & Hb). unfold load_Linear.
  pose proof (load_param_shape sd (prefix +:+ "weight") (weight l)) as Sw.
  pose proof (load_param_shape sd (prefix +:+ "bias") (bias l)) as Sb.
  destruct (load_param sd (prefix +:+ "weight") (weight l)) as [w e1].
  destruct (load_param sd (prefix +:+ "bias") (bias l)) as [b e2].
  unfold has_shape. simpl in *. repeat split; congruence.
Qed.

Lemma load_ModuleList_arch sd prefix i prev hs ls :
  hidden_arch prev hs ls ->
  hidden_arch prev hs (load_ModuleList sd prefix i ls).1.
Proof.
  revert i prev ls. induction hs as [|h hs IH]; intros i prev [|l ls] H;
    simpl in H; try done.
  destruct H as [Hl H]. cbn [load_ModuleList].
  pose proof (load_Linear_shape sd (child_prefix prefix i) _ _ _ Hl) as Hl'.
  pose proof (IH (S i) h ls H) as H'.
  destruct (load_Linear sd (child_prefix prefix i) l) as [l1 e1].
  destruct (load_ModuleList sd prefix (S i) ls) as [ls1 e2].
  simpl in *. by split.
Qed.

Lemma load_state_dict_arch i o hs m sd :
  has_arch i o hs m -> has_arch i o hs (load_state_dict m sd).1.
Proof.
  intros (Hh & Ho & Hp). unfold load_state_dict.
  pose proof (load_ModuleList_arch sd "hidden_layers." 0 _ _ _ Hh) as Hh'.
  pose proof (load_Linear_shape sd "output." _ _ _ Ho) as Ho'.
  destruct (load_ModuleList sd "hidden_layers." 0 (hidden_layers m))
    as [ls e1].
  destruct (load_Linear sd "output." (output m)) as [out e2].
  simpl in *. unfold has_arch. simpl. by split.
Qed.

End OwnStateDict.

(** ** Part 6: loading into a model all of whose hidden widths differ *)

Section AllWidthsDiffer.
Context {T : Type} {ST : Scalar T}.
Implicit Types (l : Linear T) (ls : list (Linear T)) (m : Network T).
Implicit Types (sd : StateDict T) (p q : Tensor T).

Lemma mismatches_of_msgs (xs : list size_mismatch) :
  mismatches_of (map mismatch_msg xs) = xs /\
  missing_of (map mismatch_msg xs) = [].
Proof.
  unfold mismatches_of, missing_of.
  induction xs as [|[[k s1] s2] xs [IH1 IH2]]; [done|].
  split; [cbn; by f_equal | exact IH2].
Qed.

Lemma last_width_differ i i' (A B : list nat) :
  Forall2 (fun a b => a <> b) A B -> A <> [] ->
  last_width i A <> last_width i' B.
Proof.
  intros H. revert i i'.
  induction H as [|a b A B Hab H IH]; intros i i' Hne; [done|].
  rewrite !last_width_cons. destruct H as [|a' b' A B Hab' H]; [done|].
  by apply IH.
Qed.

Lemma load_param_mismatch sd k p q :
  getitem sd k = Some q -> shape q <> shape p ->
  load_param sd k p = (p, [SizeMismatch k (shape q) (shape p)]).
Proof. intros Hk Hs. unfold load_param. rewrite Hk. by case_decide. Qed.

Lemma load_ModuleList_all_differ sd prefix i pa pb A B lsA lsB :
  hidden_arch pa A lsA -> hidden_arch pb B lsB ->
  Forall2 (fun a b => a <> b) A B ->
  (forall j l, lsA !! j = Some l ->
     getitem sd (child_prefix prefix (i + j) +:+ "weight") = Some (weight l)
     /\ getitem sd (child_prefix prefix (i + j) +:+ "bias") = Some (bias l)) ->
  load_ModuleList sd prefix i lsB =
  (lsB, map mismatch_msg (hidden_mismatches prefix i pa pb A B)).
Proof.
  intros HA HB Hd. revert i pa pb lsA lsB HA HB.
  induction Hd as [|a b A B Hab Hd IH]; intros i pa pb lsA lsB HA HB G.
  - destruct lsA, lsB; simpl in *; done.
  - destruct lsA as [|lA lsA], lsB as [|lB lsB]; simpl in HA, HB; try done.
    destruct HA as [(_ & _ & WA & BA) HA], HB as [(_ & _ & WB & BB) HB].
    destruct (G 0 lA eq_refl) as [Gw Gb]. rewrite Nat.add_0_r in Gw, Gb.
    cbn [load_ModuleList hidden_mismatches map]. unfold load_Linear.
    rewrite (load_param_mismatch _ _ _ _ Gw) by (rewrite WA, WB; congruence).
    rewrite (load_param_mismatch _ _ _ _ Gb) by (rewrite BA, BB; congruence).
    rewrite (IH (S i) a b lsA lsB HA HB).
    + rewrite WA, WB, BA, BB. by destruct lB.
    + intros j l' Hj. replace (S i + j) with (i + S j) by lia.
      by apply (G (S j)).
Qed.

(** The load into an architecture whose hidden widths all differ from the
    stored ones, in full. *)
Lemma load_state_dict_differ i o A B mA mB :
  has_arch i o A mA -> has_arch i o B mB ->
  Forall2 (fun a b => a <> b) A B -> A <> [] ->
  load_state_dict mB (state_dict mA) =
  (with_output_bias mB (bias (output mA)),
   Raise (StateDictError
            (LoadReport [] []
               (hidden_mismatches "hidden_layers." 0 i i A B ++
                [("output.weight", [o; last_width i A],
                                   [o; last_width i B])])))).
Proof.
  intros (HA & (_ & _ & WA & BA) & _) (HB & (_ & _ & WB & BB) & _) Hd Hne.
  unfold load_state_dict.
  rewrite (load_ModuleList_all_differ _ _ 0 i i A B _ _ HA HB Hd)
    by (intros j l Hj; by apply getitem_state_dict_hidden).
  destruct (getitem_state_dict_output mA) as [Gw Gb].
  unfold load_Linear.
  change ("output." +:+ "weight") with "output.weight".
  change ("output." +:+ "bias") with "output.bias".
  rewrite (load_param_mismatch _ _ _ _ Gw).
  2:{ rewrite WA, WB. intros [= E]. by apply (last_width_differ i i A B Hd). }
  rewrite (load_param_found _ _ _ _ Gb) by congruence.
  rewrite !keys_state_dict.
  rewrite (hidden_arch_length _ _ _ HA), (hidden_arch_length _ _ _ HB).
  rewrite (Forall2_length _ _ _ Hd), filter_not_elem_self.
  rewrite WA, WB.
  set (xs := hidden_mismatches "hidden_layers." 0 i i A B).
  set (x := ("output.weight", [o; last_width i A], [o; last_width i B])).
  change ([SizeMismatch "output.weight" [o; last_width i A]
                        [o; last_width i B]] ++ [])
    with (map mismatch_msg [x]).
  rewrite <- map_app.
  destruct (mismatches_of_msgs (xs ++ [x])) as [-> ->].
  rewrite map_app. unfold with_output_bias.
  destruct xs; reflexivity.
Qed.

(** X2.  The load of cell 10 of Part 6, for any two architectures with the
    same input and output widths whose hidden widths differ at every
    position: [load_state_dict] raises, with no missing and no unexpected
    key and with one size mismatch for the weight and the bias of every
    hidden layer and for the weight of [output], in this order (the list the
    notebook prints); the model it leaves is the model it was given with the
    bias of [output] overwritten by the stored one, and nothing else
    changed. *)
Theorem load_state_dict_all_widths_differ i o A B mA mB :
  has_arch i o A mA -> has_arch i o B mB ->
  Forall2 (fun a b => a <> b) A B -> A <> [] ->
  load_state_dict mB (state_dict mA) =
  (with_output_bias mB (bias (output mA)),
   Raise (StateDictError
            (LoadReport [] []
               (hidden_mismatches "hidden_layers." 0 i i A B ++
                [("output.weight", [o; last_width i A],
                                   [o; last_width i B])])))).
Proof. apply load_state_dict_differ. Qed.

(** The list that cell 10 prints: the checkpoint of the trained model
    (hidden widths 512, 256, 128) against hidden widths 400, 200, 100. *)
Lemma cell_10_mismatches :
  hidden_mismatches "hidden_layers." 0 784 784 [512; 256; 128] [400; 200; 100]
  ++ [("output.weight", [10; last_width 784 [512; 256; 128]],
                        [10; last_width 784 [400; 200; 100]])] =
  [("hidden_layers.0.weight", [512; 784], [400; 784]);
   ("hidden_layers.0.bias", [512], [400]);
   ("hidden_layers.1.weight", [256; 512], [200; 400]);
   ("hidden_layers.1.bias", [256], [200]);
   ("hidden_layers.2.weight", [128; 256], [100; 200]);
   ("hidden_layers.2.bias", [128], [100]);
   ("output.weight", [10; 128], [10; 100])].
Proof. vm_compute. reflexivity. Qed.

End AllWidthsDiffer.

(** ** Part 6: cells 10 to 13 in a row *)

Section Part6Session.
Context {T : Type} {ST : Scalar T}.
Implicit Types (l : Linear T) (ls : list (Linear T)) (m : Network T).
Implicit Types (sd : StateDict T) (s : Session T).

Lemma with_output_bias_arch i o hs m (b : Tensor T) :
  has_arch i o hs m -> shape b = [o] -> has_arch i o hs (with_output_bias m b).
Proof.
  intros (Hh & (Hi & Ho & Hw & Hb) & Hp) Hs.
  unfold has_arch, has_shape, with_output_bias. simpl. by repeat split.
Qed.

(** [load_checkpoint] on a dictionary whose fields are the architecture of
    the model whose state dict it stores. *)
Lemma load_checkpoint_fields (rng : nat -> T) pos
    (fs : gmap string (pydict T)) path (ckpt : pydict T) a b hs m :
  fs !! path = Some ckpt ->
  getitem ckpt "input_size" = Some (PyInt a) ->
  getitem ckpt "output_size" = Some (PyInt b) ->
  getitem ckpt "hidden_layers" = Some (PyIntList hs) ->
  getitem ckpt "state_dict" = Some (PyStateDict (state_dict m)) ->
  has_arch a b hs m ->
  load_checkpoint rng pos fs path = Ok m.
Proof.
  intros Hfs Ha Hb Hhs Hsd Hm.
  unfold load_checkpoint, torch_load, subscript.
  rewrite Hfs. cbn [rbind]. rewrite Ha, Hb, Hhs. cbn [rbind as_int as_int_list].
  rewrite Hsd. cbn [rbind as_state_dict].
  rewrite (load_state_dict_same_arch a b hs _ m);
    [done | apply Network_init_arch | done].
Qed.

(** X3.  Cells 10, 11 and 13 of Part 6 run in a row, when the state dict
    read in cell 8 is that of a model of widths 784 and 10 with three hidden
    widths, all different from 400, 200, 100: cell 10 raises, cell 11 and
    cell 13 do not, and the model that cell 13 prints has hidden widths 400,
    200, 100 and is the model constructed in cell 10 with the bias of its
    output layer taken from the trained model: all other parameters keep
    the initial values of cell 10. *)
Theorem cells_10_to_13_final_model
    (rng10 rng13 : nat -> T) pos10 pos13 s A m0 :
  nb_state_dict s = state_dict m0 ->
  has_arch 784 10 A m0 ->
  Forall2 (fun a b => a <> b) A [400; 200; 100] ->
  let fresh := Network_init rng10 pos10 784 10 [400; 200; 100] in
  let final := with_output_bias fresh (bias (output m0)) in
  has_arch 784 10 [400; 200; 100] final /\
  exists r,
    cells_10_to_13 rng10 pos10 rng13 pos13 s =
    (mkSession final (nb_state_dict s)
       (torch_save (checkpoint final) "checkpoint.pth" (nb_files s)),
     [Raise (StateDictError r); Ok tt; Ok tt]).
Proof.
  intros Hsd Hm0 Hd fresh final.
  assert (has_arch 784 10 [400; 200; 100] fresh) as Hfresh
    by apply Network_init_arch.
  assert (has_arch 784 10 [400; 200; 100] final) as Hfinal.
  { apply with_output_bias_arch; [done|].
    by destruct Hm0 as (_ & (_ & _ & _ & Hb) & _). }
  split; [done|].
  assert (A <> []) as Hne by (intros ->; inversion Hd).
  eexists. unfold cells_10_to_13, cell_10. fold fresh. rewrite Hsd.
  rewrite (load_state_dict_differ 784 10 A _ m0 fresh
             Hm0 Hfresh Hd Hne).
  fold final. clearbody fresh. unfold cell_11, cell_13.
  cbn [nb_model nb_state_dict nb_files].
  destruct Hfinal as (Hh & Ho & Hp).
  rewrite (load_checkpoint_fields rng13 pos13 _ "checkpoint.pth"
             (checkpoint final) 784 10 [400; 200; 100] final);
    [reflexivity | apply lookup_insert_eq | done | done | | done | done].
  unfold checkpoint. cbn [getitem]. repeat case_decide; try done.
  by rewrite (hidden_arch_out_features _ _ _ Hh).
Qed.

(** X4.  A model returned by [load_checkpoint] has the architecture written
    in the file (input size, output size, hidden widths), and the state dict
    of the file has exactly its parameter names: every stored key names a
    parameter of the model, and every parameter of the model holds the
    tensor stored under its name. *)
Theorem load_checkpoint_complete (rng : nat -> T) pos
    (fs : gmap string (pydict T)) path m :
  load_checkpoint rng pos fs path = Ok m ->
  exists (ckpt : pydict T) a b hs sd,
    fs !! path = Some ckpt /\
    getitem ckpt "input_size" = Some (PyInt a) /\
    getitem ckpt "output_size" = Some (PyInt b) /\
    getitem ckpt "hidden_layers" = Some (PyIntList hs) /\
    getitem ckpt "state_dict" = Some (PyStateDict sd) /\
    has_arch a b hs m /\
    (forall k, k ∈ keys sd -> k ∈ keys (state_dict m)) /\
    (forall k p, (k, p) ∈ state_dict m ->
       getitem sd k = Some p).
Proof.
  intros Hload.
  unfold load_checkpoint, torch_load, subscript in Hload.
  destruct (fs !! path) as [ckpt|] eqn:Hfs; simpl in Hload; [|done].
  destruct (getitem ckpt "input_size") as [va|] eqn:Ha; simpl in Hload;
    [|done].
  destruct (getitem ckpt "output_size") as [vb|] eqn:Hb; simpl in Hload;
    [|done].
  destruct (getitem ckpt "hidden_layers") as [vc|] eqn:Hc; simpl in Hload;
    [|done].
  destruct va as [a| |]; simpl in Hload; try done.
  destruct vb as [b| |]; simpl in Hload; try done.
  destruct vc as [|hs|]; simpl in Hload; try done.
  destruct (getitem ckpt "state_dict") as [vd|] eqn:Hd; simpl in Hload;
    [|done].
  destruct vd as [| |sd]; simpl in Hload; try done.
  set (fresh := Network_init rng pos a b hs) in *.
  pose proof (Network_init_arch rng pos a b hs) as Hfresh. fold fresh in Hfresh.
  clearbody fresh.
  pose proof (load_state_dict_arch a b hs fresh sd Hfresh) as Harch.
  destruct (load_state_dict_spec fresh sd) as [Hst Hres].
  destruct (load_state_dict fresh sd) as [m' r]. simpl in *.
  destruct r as [[]|e]; simpl in Hload; [|done]. injection Hload as ->.
  exists ckpt, a, b, hs, sd. do 5 (split; [done|]). split; [done|].
  assert (keys (state_dict m) = keys (state_dict fresh)) as Hkeys.
  { rewrite Hst. unfold keys. rewrite map_map. done. }
  destruct (load_messages sd (state_dict fresh)) as [|msg msgs] eqn:Hm;
    [|done].
  destruct (filter _ (keys sd)) as [|u us] eqn:Hu in Hres; [|done].
  split.
  - intros k Hk. rewrite Hkeys.
    destruct (decide (k ∈ keys (state_dict fresh))) as [|Hn]; [done|].
    exfalso.
    assert (k ∈ filter (fun k => k ∉ keys (state_dict fresh)) (keys sd))
      as Habs by (by apply list_elem_of_filter).
    rewrite Hu in Habs. by apply elem_of_nil in Habs.
  - intros k p Hin. rewrite Hst in Hin.
    apply list_elem_of_fmap in Hin as [[k0 p0] [[= -> ->] Hin]]. simpl.
    assert ((load_param sd k0 p0).2 = []) as Hk.
    { destruct (load_param sd k0 p0).2 as [|e es] eqn:He; [done|].
      exfalso. eapply (load_messages_nonempty sd _ k0 p0 Hin); [|exact Hm].
      by rewrite He. }
    unfold load_param, loaded_value in *.
    destruct (getitem sd k0) as [q|]; [|done]. by case_decide.
Qed.

(** X5.  [load_checkpoint] restores every model from a dictionary that
    records its own architecture: if the stored [input_size],
    [output_size] and [hidden_layers] are the widths of the model whose
    state dict is stored, the call returns that model, for every
    architecture, whatever the initial values drawn and whatever else the
    dictionary holds. *)
Theorem load_checkpoint_own_architecture (rng : nat -> T) pos
    (fs : gmap string (pydict T)) path (ckpt : pydict T) a b hs m :
  fs !! path = Some ckpt ->
  getitem ckpt "input_size" = Some (PyInt a) ->
  getitem ckpt "output_size" = Some (PyInt b) ->
  getitem ckpt "hidden_layers" = Some (PyIntList hs) ->
  getitem ckpt "state_dict" = Some (PyStateDict (state_dict m)) ->
  has_arch a b hs m ->
  load_checkpoint rng pos fs path = Ok m.
Proof. apply load_checkpoint_fields. Qed.

End Part6Session.

(** ** Instances of the Part 6 properties *)

(** The state dict of a model of hidden widths [3; 2] loaded into one of
    hidden widths [2; 3]. *)
Lemma load_state_dict_all_widths_differ_witness :
  let mA := Network_init (fun _ => 1%R) 0 4 3 [3; 2] in
  let mB := Network_init (fun _ => 0%R) 0 4 3 [2; 3] in
  (has_arch 4 3 [3; 2] mA /\ has_arch 4 3 [2; 3] mB /\
   Forall2 (fun a b => a <> b) [3; 2] [2; 3] /\ [3; 2] <> []) /\
  load_state_dict mB (state_dict mA) =
  (with_output_bias mB (bias (output mA)),
   Raise (StateDictError (LoadReport [] []
      (hidden_mismatches "hidden_layers." 0 4 4 [3; 2] [2; 3] ++
       [("output.weight", [3; last_width 4 [3; 2]],
                          [3; last_width 4 [2; 3]])])))).
Proof.
  intros mA mB.
  assert (has_arch 4 3 [3; 2] mA) as HA by (vm_compute; repeat split).
  assert (has_arch 4 3 [2; 3] mB) as HB by (vm_compute; repeat split).
  assert (Forall2 (fun a b : nat => a <> b) [3; 2] [2; 3]) as Hd
    by (repeat constructor; discriminate).
  assert ([3; 2] <> @nil nat) as Hne by discriminate.
  split; [by repeat split|].
  apply (load_state_dict_all_widths_differ 4 3 [3; 2] [2; 3] mA mB
           HA HB Hd Hne).
Defined.

(** The session of Part 6 when the trained model has hidden widths
    [1; 1; 1]. *)
Lemma cells_10_to_13_final_model_witness :
  let m0 := Network_init (fun _ => 1%R) 0 784 10 [1; 1; 1] in
  let s := mkSession m0 (state_dict m0) ∅ in
  let rng := fun _ : nat => 0%R in
  (nb_state_dict s = state_dict m0 /\ has_arch 784 10 [1; 1; 1] m0 /\
   Forall2 (fun a b => a <> b) [1; 1; 1] [400; 200; 100]) /\
  let fresh := Network_init rng 0 784 10 [400; 200; 100] in
  let final := with_output_bias fresh (bias (output m0)) in
  has_arch 784 10 [400; 200; 100] final /\
  exists r,
    cells_10_to_13 rng 0 rng 0 s =
    (mkSession final (nb_state_dict s)
       (torch_save (checkpoint final) "checkpoint.pth" (nb_files s)),
     [Raise (StateDictError r); Ok tt; Ok tt]).
Proof.
  intros m0 s rng.
  assert (nb_state_dict s = state_dict m0) as Hs by exact eq_refl.
  assert (has_arch 784 10 [1; 1; 1] m0) as Hm by apply Network_init_arch.
  assert (Forall2 (fun a b : nat => a <> b) [1; 1; 1] [400; 200; 100]) as Hd
    by (repeat constructor; discriminate).
  split; [by repeat split|].
  apply (cells_10_to_13_final_model rng rng 0 0 s [1; 1; 1] m0 Hs Hm Hd).
Defined.

(** A checkpoint of a small model, loaded back. *)
Lemma load_checkpoint_complete_witness :
  let m := Network_init (fun _ => 1%R) 0 4 3 [3; 2] in
  let ckpt : pydict R :=
    [("input_size", PyInt 4); ("output_size", PyInt 3);
     ("hidden_layers", PyIntList [3; 2]);
     ("state_dict", PyStateDict (state_dict m))] in
  let fs : gmap string (pydict R) := <["checkpoint.pth" := ckpt]> ∅ in
  load_checkpoint (fun _ => 0%R) 0 fs "checkpoint.pth" = Ok m /\
  exists (ckpt : pydict R) a b hs sd,
    fs !! "checkpoint.pth" = Some ckpt /\
    getitem ckpt "input_size" = Some (PyInt a) /\
    getitem ckpt "output_size" = Some (PyInt b) /\
    getitem ckpt "hidden_layers" = Some (PyIntList hs) /\
    getitem ckpt "state_dict" = Some (PyStateDict sd) /\
    has_arch a b hs m /\
    (forall k, k ∈ keys sd -> k ∈ keys (state_dict m)) /\
    (forall k p, (k, p) ∈ state_dict m -> getitem sd k = Some p).
Proof.
  intros m ckpt fs.
  assert (load_checkpoint (fun _ => 0%R) 0 fs "checkpoint.pth" = Ok m) as H
    by (vm_compute; reflexivity).
  split; [exact H|].
  apply (load_checkpoint_complete (fun _ => 0%R) 0 fs "checkpoint.pth" m H).
Defined.

(** A dictionary that records the architecture of its model, with one more
    field. *)
Lemma load_checkpoint_own_architecture_witness :
  let m := Network_init (fun _ => 1%R) 0 4 3 [3; 2] in
  let ckpt : pydict R :=
    [("epoch", PyInt 5); ("input_size", PyInt 4); ("output_size", PyInt 3);
     ("hidden_layers", PyIntList [3; 2]);
     ("state_dict", PyStateDict (state_dict m))] in
  let fs : gmap string (pydict R) := <["model.pth" := ckpt]> ∅ in
  (fs !! "model.pth" = Some ckpt /\
   getitem ckpt "input_size" = Some (PyInt 4) /\
   getitem ckpt "output_size" = Some (PyInt 3) /\
   getitem ckpt "hidden_layers" = Some (PyIntList [3; 2]) /\
   getitem ckpt "state_dict" = Some (PyStateDict (state_dict m)) /\
   has_arch 4 3 [3; 2] m) /\
  load_checkpoint (fun _ => 0%R) 0 fs "model.pth" = Ok m.
Proof.
  intros m ckpt fs.
  assert (fs !! "model.pth" = Some ckpt) as H1 by apply lookup_insert_eq.
  assert (getitem ckpt "input_size" = Some (PyInt 4)) as H2
    by (vm_compute; reflexivity).
  assert (getitem ckpt "output_size" = Some (PyInt 3)) as H3
    by (vm_compute; reflexivity).
  assert (getitem ckpt "hidden_layers" = Some (PyIntList [3; 2])) as H4
    by (vm_compute; reflexivity).
  assert (getitem ckpt "state_dict" = Some (PyStateDict (state_dict m)))
    as H5 by (vm_compute; reflexivity).
  assert (has_arch 4 3 [3; 2] m) as H6 by apply Network_init_arch.
  split; [by repeat split|].
  apply (load_checkpoint_own_architecture (fun _ => 0%R) 0 fs "model.pth"
           ckpt 4 3 [3; 2] m H1 H2 H3 H4 H5 H6).
Defined.

(** ** Part 3: the training loop on batches that fit the model *)

Section TrainingCompletes.
Context {T : Type} {ST : Scalar T}.
Variable autograd : Sequential T * rows T * list nat -> list (Tensor T).
Variable lr : T.
Implicit Types (ms : Sequential T) (x y : rows T) (w : World T).

Lemma F_linear_width (W b : Tensor T) x bsz :
  has_dims bsz (nth 1 (shape W) 0) x ->
  F_linear W b x = Ok (map (linear_row W b) x) /\
  has_dims bsz (nth 0 (shape W) 0) (map (linear_row W b) x).
Proof.
  intros [Hb Hx]. unfold F_linear. split.
  - destruct (list_find _ x) as [[j r]|] eqn:E; [|done].
    apply list_find_Some in E as (Hj & Hne & _). exfalso. apply Hne.
    by eapply (proj1 (Forall_lookup _ _) Hx).
  - split; [by rewrite length_map|].
    apply Forall_fmap, Forall_true. intros r. simpl.
    unfold linear_row. by rewrite length_map, length_seq.
Qed.

(** A model fed rows of the width it expects returns, with rows of its
    output width. *)
Lemma Sequential_forward_width ms n c x bsz :
  out_width ms n = Some c -> has_dims bsz n x ->
  exists y, Sequential_forward ms x = Ok y /\ has_dims bsz c y.
Proof.
  revert n x. induction ms as [|[l| |] ms IH]; intros n x Hw Hx;
    cbn [out_width Sequential_forward] in *.
  - injection Hw as <-. eauto.
  - case_decide as Hn; [|done]. subst n. unfold Linear_forward.
    destruct (F_linear_width (weight l) (bias l) x bsz Hx) as [-> Hy].
    cbn [rbind]. by apply (IH _ _ Hw).
  - apply (IH _ _ Hw). by apply relu_dims.
  - apply (IH _ _ Hw). by apply log_softmax_dims.
Qed.

(** The criterion accepts an output with one row per label and a column for
    every label. *)
Lemma nll_loss_returns y labels bsz c :
  has_dims bsz c y -> length labels = bsz -> Forall (fun k => k < c) labels ->
  exists v, nll_loss y labels = Ok v.
Proof.
  intros [Hb Hy] Hl Hc. unfold nll_loss.
  case_decide as Hlen; [|lia].
  match goal with |- context [rbind (?f y labels)] => set (pick := f) end.
  assert (exists picked, pick y labels = Ok picked) as [picked ->];
    [|simpl; eauto].
  clear Hlen Hb Hl bsz. revert labels Hc.
  induction Hy as [|r y Hr Hy IH]; intros [|k labels] Hc; simpl; eauto.
  apply Forall_cons in Hc as [Hk Hc].
  destruct (lookup_lt_is_Some_2 r k) as [a ->]; [lia|].
  destruct (IH _ Hc) as [rest ->]. simpl. eauto.
Qed.

Lemma shape_sgd (p : Tensor T) g : shape (sgd lr p g) = shape p.
Proof. by destruct g. Qed.

(** [optimizer.step()] changes no shape, so the model accepts what it
    accepted. *)
Lemma out_width_step ms gs n :
  out_width (with_parameters ms (zip_with (sgd lr) (parameters ms) gs)) n
  = out_width ms n.
Proof.
  revert gs n. induction ms as [|[l| |] ms IH]; intros gs n;
    cbn [parameters with_parameters out_width]; try done.
  destruct gs as [|g1 [|g2 gs]]; cbn [zip_with]; try done.
  cbn [out_width weight]. rewrite shape_sgd.
  case_decide; [apply IH | done].
Qed.

(** One training pass on a batch that fits returns, and the model accepts
    afterwards what it accepted before. *)
Lemma training_pass_returns b w n c :
  out_width (model w) n = Some c -> batch_fits n c b ->
  exists w1 l,
    training_pass autograd lr b w = (w1, Ok l) /\
    out_width (model w1) n = Some c /\ stdout w1 = stdout w.
Proof.
  intros Hw (bsz & rest & Hs & Hb & Hn & Hd & Hl & Hc).
  destruct b as [images labels]. simpl in *.
  destruct (view_dims images bsz rest Hs Hb Hd) as (x & Hv & Hx).
  rewrite Hn in Hx.
  unfold training_pass, backward_pass, criterion, call_model, mbind, lift.
  rewrite Hv. simpl.
  destruct (Sequential_forward_width _ _ _ _ _ Hw Hx) as (y & -> & Hy).
  simpl.
  destruct (nll_loss_returns y labels bsz c Hy Hl Hc) as [v ->]. simpl.
  eexists _, _. split; [reflexivity|]. simpl.
  by rewrite out_width_step.
Qed.

Lemma for_batches_returns bs running_loss w n c :
  out_width (model w) n = Some c -> Forall (batch_fits n c) bs ->
  exists w1 v,
    for_batches autograd lr bs running_loss w = (w1, Ok v) /\
    out_width (model w1) n = Some c /\ stdout w1 = stdout w.
Proof.
  intros Hw Hbs. revert running_loss w Hw.
  induction Hbs as [|b bs Hb _ IH]; intros running_loss w Hw;
    cbn [for_batches].
  - by exists w, running_loss.
  - unfold mbind.
    destruct (training_pass_returns b w n c Hw Hb) as (w1 & l & -> & Hw1 & Hs).
    destruct (IH (s_add running_loss l) w1 Hw1) as (w2 & v & -> & Hw2 & Hs2).
    exists w2, v. by rewrite Hs2, Hs.
Qed.

Lemma for_epochs_returns trainloader e k w n c :
  out_width (model w) n = Some c ->
  dl_len trainloader <> 0 ->
  (forall j, e <= j < e + k ->
     Forall (batch_fits n c) (dl_batches trainloader j)) ->
  exists w1,
    for_epochs autograd lr trainloader e k w = (w1, Ok tt) /\
    out_width (model w1) n = Some c /\
    length (stdout w1) = length (stdout w) + k.
Proof.
  intros Hw Hlen. revert e w Hw.
  induction k as [|k IH]; intros e w Hw Hbs; cbn [for_epochs].
  - exists w. split; [done|]. split; [done | lia].
  - unfold mbind at 1. unfold epoch, mbind, lift, py_div.
    destruct (for_batches_returns (dl_batches trainloader e) s_zero w n c Hw)
      as (w1 & v & -> & Hw1 & Hs1); [apply Hbs; lia|].
    case_decide; [done|]. unfold print.
    match goal with |- context [for_epochs _ _ _ _ _ ?w2] =>
      destruct (IH (S e) w2) as (w3 & -> & Hw3 & Hs3) end;
      [done | intros j Hj; apply Hbs; lia |].
    exists w3. split; [done|]. split; [done|].
    rewrite Hs3. simpl. rewrite length_app, Hs1. simpl. lia.
Qed.

(** X6.  The training loop of cell 15 of Part 3 runs to its end whenever
    the loader is not empty and every batch of every epoch fits the model:
    at least one image per batch, every image of as many entries as the
    first layer takes, one label per image, every label below the number of
    classes.  No statement of any pass raises, whatever the gradients are;
    one loss is printed per epoch, and after the last update the model
    still takes the same inputs. *)
Theorem train_completes trainloader epochs w n c :
  out_width (model w) n = Some c ->
  dl_len trainloader <> 0 ->
  (forall e, e < epochs ->
     Forall (batch_fits n c) (dl_batches trainloader e)) ->
  exists w1,
    train autograd lr trainloader epochs w = (w1, Ok tt) /\
    out_width (model w1) n = Some c /\
    length (stdout w1) = length (stdout w) + epochs.
Proof.
  intros Hw Hlen Hbs. apply for_epochs_returns; [done | done |].
  intros j Hj. apply Hbs. lia.
Qed.

(** The model of cells 3, 10 and 15 takes rows of the width of its first
    layer and returns one column per unit of its last layer. *)
Lemma part3_model_out_width i h1 h2 o (l1 l2 l3 : Linear T) :
  has_shape i h1 l1 -> has_shape h1 h2 l2 -> has_shape h2 o l3 ->
  out_width (part3_model l1 l2 l3) i = Some o.
Proof.
  intros (_ & _ & W1 & _) (_ & _ & W2 & _) (_ & _ & W3 & _).
  unfold part3_model. cbn [out_width]. rewrite W1, W2, W3. simpl.
  by repeat (case_decide; [|done]).
Qed.

End TrainingCompletes.

(** ** Part 3: what one training pass does to the parameters *)

Section TrainingUpdate.
Local Open Scope R_scope.
Variable autograd : Sequential R * rows R * list nat -> list (Tensor R).
Variable lr : R.
Implicit Types (ms : Sequential R) (w : World R).

(** A model whose parameters were all replaced has the new ones. *)
Lemma parameters_with_parameters ms (ps : list (Tensor R)) :
  length ps = length (parameters ms) ->
  parameters (with_parameters ms ps) = ps.
Proof.
  revert ps. induction ms as [|[l| |] ms IH]; intros ps Hl;
    cbn [parameters with_parameters] in *.
  - by destruct ps.
  - destruct ps as [|p1 [|p2 ps]]; simpl in Hl; try done.
    cbn [parameters weight bias]. rewrite IH by lia. done.
  - by apply IH.
  - by apply IH.
Qed.

Lemma accumulate_zeroed og (d : Tensor R) :
  match og with
  | Some z => length (data z) = length (data d)
  | None => True
  end ->
  data <$> accumulate (zeros_like <$> og) d = Some (data d).
Proof.
  destruct og as [z|]; simpl; [|done]. intros Hl. f_equal.
  apply zip_with_zero_l; [|by rewrite length_map].
  apply Forall_fmap, Forall_true. done.
Qed.

Lemma zip_with_sgd_fresh (ps ds : list (Tensor R)) gs :
  Forall2 (fun og d => data <$> og = Some (data d)) gs ds ->
  zip_with (sgd lr) ps gs =
  zip_with (fun p d =>
              mkTensor (shape p)
                (zip_with (fun a b => a - lr * b) (data p) (data d)))
           ps ds.
Proof.
  intros H. revert ps. induction H as [|og d gs ds Hg _ IH]; intros [|p ps];
    simpl; try done.
  rewrite IH. f_equal. destruct og as [g|]; simpl in *; [|done].
  by injection Hg as ->.
Qed.

(** X7.  The update of one training pass of cell 15 of Part 3 (lines 582 to
    590) uses the gradient of the loss of this batch and nothing else: every
    parameter [p] becomes [p - lr * d], with [d] the gradient of the loss of
    this pass with respect to [p], whatever values the gradients held before
    the pass; and the gradients hold exactly [d] afterwards. *)
Theorem training_pass_update images labels w w1 l :
  training_pass autograd lr (images, labels) w = (w1, Ok l) ->
  length (grads w) = length (parameters (model w)) ->
  (forall x, view images = Ok x ->
     grads_fit (grads w) (autograd (model w, x, labels))) ->
  exists x,
    view images = Ok x /\
    parameters (model w1) =
    zip_with (fun p d =>
                mkTensor (shape p)
                  (zip_with (fun a b => a - lr * b) (data p) (data d)))
             (parameters (model w)) (autograd (model w, x, labels)) /\
    Forall2 (fun og d => data <$> og = Some (data d))
            (grads w1) (autograd (model w, x, labels)).
Proof.
  intros Hp Hlen Hfit.
  unfold training_pass, backward_pass, criterion, call_model, mbind, lift
    in Hp.
  destruct (view images) as [x|e]; simpl in Hp; [|done].
  destruct (Sequential_forward (model w) x) as [y|e]; simpl in Hp; [|done].
  destruct (nll_loss y labels) as [v|e]; simpl in Hp; [|done].
  injection Hp as <- _. exists x. split; [done|]. simpl.
  specialize (Hfit x eq_refl). set (ds := autograd (model w, x, labels)) in *.
  assert (Forall2 (fun og d => data <$> og = Some (data d))
            (zip_with accumulate (map (fmap zeros_like) (grads w)) ds) ds)
    as Hfresh.
  { clear Hlen. unfold grads_fit in Hfit.
    induction Hfit as [|og d gs ds' Hg _ IH]; simpl; constructor; [|done].
    by apply accumulate_zeroed. }
  split; [|done].
  rewrite (zip_with_sgd_fresh _ ds _ Hfresh).
  apply parameters_with_parameters.
  rewrite length_zip_with. apply Forall2_length in Hfit. lia.
Qed.

End TrainingUpdate.

(** ** Part 3: the two criteria, and the losses they return *)

Section Criteria.
Local Open Scope R_scope.
Implicit Types (r : list R) (x y : rows R) (ms : Sequential R).

Lemma Sequential_forward_app ms ms' x :
  Sequential_forward (ms ++ ms') x =
  (y <~ Sequential_forward ms x ; Sequential_forward ms' y).
Proof.
  revert x. induction ms as [|[l| |] ms IH]; intros x;
    cbn [app Sequential_forward rbind]; try done.
  destruct (Linear_forward l x) as [y|e]; cbn [rbind]; [apply IH | done].
Qed.

Lemma Sequential_forward_log_softmax ms x :
  Sequential_forward (ms ++ [MLogSoftmax]) x =
  (y <~ Sequential_forward ms x ; Ok (log_softmax y)).
Proof. by rewrite Sequential_forward_app. Qed.

Lemma log_softmax_row_lookup r k a :
  r !! k = Some a ->
  log_softmax_row r !! k = Some (a - ln (sum_scalars (map exp r))).
Proof.
  intros Hk. unfold log_softmax_row.
  change (map ?f r) with (f <$> r) at 1.
  rewrite list_lookup_fmap, Hk. simpl. f_equal.
  assert (r <> []) as Hr by (intros ->; done).
  pose proof (sum_exp_pos r Hr) as Hs.
  unfold Rdiv. rewrite ln_mult; [|apply exp_pos | by apply Rinv_0_lt_compat].
  rewrite ln_exp, ln_Rinv by done. lra.
Qed.

Lemma log_softmax_row_lookup_None r k :
  r !! k = None -> log_softmax_row r !! k = None.
Proof.
  intros Hk. unfold log_softmax_row.
  change (map ?f r) with (f <$> r) at 1.
  by rewrite list_lookup_fmap, Hk.
Qed.

(** The criterion of cell 2 on scores is the criterion of cell 3 on their
    [log_softmax]. *)
Lemma cross_entropy_log_softmax x labels :
  cross_entropy_loss x labels = nll_loss (log_softmax x) labels.
Proof.
  unfold cross_entropy_loss, nll_loss.
  replace (length (log_softmax x)) with (length x)
    by (unfold log_softmax; by rewrite length_map).
  case_decide as Hlen; [|done]. clear Hlen.
  match goal with
  | |- rbind (?f x labels) _ = rbind (?g (log_softmax x) labels) _ =>
      set (each := f); set (pick := g)
  end.
  assert (match each x labels, pick (log_softmax x) labels with
          | Ok ls, Ok ps => sum_scalars ls = 0 - sum_scalars ps
          | Raise e, Raise e' => e = e'
          | _, _ => False
          end) as H.
  { generalize labels. clear labels.
    induction x as [|r x IH]; intros [|k labels]; simpl; try lra.
    destruct (r !! k) as [a|] eqn:Hk.
    - rewrite (log_softmax_row_lookup r k a Hk). specialize (IH labels).
      destruct (each x labels) as [ls|e],
               (pick (log_softmax x) labels) as [ps|e']; simpl; try done.
      rewrite IH. lra.
    - by rewrite (log_softmax_row_lookup_None r k Hk). }
  destruct (each x labels) as [ls|e],
           (pick (log_softmax x) labels) as [ps|e']; simpl; try done.
  - by rewrite H.
  - by rewrite H.
Qed.

(** X8.  Cells 2 and 3 of Part 3 compute the same loss: the model without
    [nn.LogSoftmax] under [nn.CrossEntropyLoss()] and the model with
    [nn.LogSoftmax(dim=1)] as its last module under [nn.NLLLoss()] return
    the same value on every batch, for all values of the parameters of the
    three layers, and raise the same error where they raise. *)
Theorem cell_2_loss_is_cell_3_loss (l1 l2 l3 : Linear R) (b : Batch R) :
  loss_of cross_entropy_loss (cell2_model l1 l2 l3) b =
  loss_of nll_loss (part3_model l1 l2 l3) b.
Proof.
  destruct b as [images labels]. unfold loss_of.
  destruct (view images) as [x|e]; cbn [rbind]; [|done].
  change (part3_model l1 l2 l3) with (cell2_model l1 l2 l3 ++ [MLogSoftmax]).
  rewrite Sequential_forward_log_softmax.
  destruct (Sequential_forward (cell2_model l1 l2 l3) x) as [y|e];
    cbn [rbind]; [|done].
  apply cross_entropy_log_softmax.
Qed.




End Criteria.

(** ** Part 3: the losses that the loop prints *)

Section PrintedLosses.
Local Open Scope R_scope.
Variable autograd : Sequential R * rows R * list nat -> list (Tensor R).
Variable lr : R.
Implicit Types (ms : Sequential R) (w : World R).








End PrintedLosses.

(** ** Part 3: the prediction of cell 16 *)

Section Prediction.
Local Open Scope R_scope.
Implicit Types (r : list R) (x y : rows R) (ms : Sequential R) (w : World R).

Lemma out_width_log_softmax ms n :
  out_width (ms ++ [MLogSoftmax]) n = out_width ms n.
Proof.
  revert n. induction ms as [|[l| |] ms IH]; intros n;
    cbn [app out_width]; try done.
  case_decide; [apply IH | done].
Qed.



End Prediction.

(** ** Part 3: the gradient of the small example *)

Section AutogradExample.
Local Open Scope R_scope.
Implicit Types (x : Tensor R) (xs : list R).

Lemma sum_squares_insert xs i a t :
  xs !! i = Some a ->
  sum_scalars (map (fun b => s_pow b 2) (<[i:=t]> xs)) =
  sum_scalars (map (fun b => s_pow b 2) xs) - a * a + t * t.
Proof.
  revert i. induction xs as [|b xs IH]; intros [|i] Hi; simpl in *;
    try done.
  - injection Hi as ->. lra.
  - rewrite (IH i Hi). lra.
Qed.

Lemma zip_with_const_l {A B C} (f : A -> B -> C) (g : B -> B) c
    (l : list B) :
  zip_with f (map (fun _ => c) (map g l)) l = map (f c) l.
Proof. induction l as [|a l IH]; simpl; [done|]. by rewrite IH. Qed.

Lemma backprop_mean_of_squares x :
  backward_grad (mean_of_squares x) =
  Some (map (fun a => 1 / INR (length (data x)) * (2 * a)) (data x)).
Proof.
  unfold backward_grad, mean_of_squares. cbn [value data length].
  case_decide; [|done]. f_equal. cbn [backprop value data hd].
  rewrite length_map, zip_with_const_l.
  apply map_ext. intros a. change (s_of_nat 2) with (INR 2).
  change (s_of_nat ?k) with (INR k). simpl. lra.
Qed.

(** X11.  Cells 4 to 9 of Part 3: for every tensor [x] of four entries (the
    2 x 2 tensor of cell 4, whatever values were drawn), after
    [z.backward()] with [z = (x**2).mean()] the gradient [x.grad] is [x/2],
    entry by entry: the two tensors that cell 9 prints are equal. *)
Theorem x_grad_is_half_x x :
  length (data x) = 4%nat ->
  backward_grad (mean_of_squares x) = Some (map (fun a => a / 2) (data x)).
Proof.
  intros Hn. rewrite backprop_mean_of_squares, Hn. f_equal.
  apply map_ext. intros a. simpl. lra.
Qed.

(** X12.  The gradient that [z.backward()] leaves in [x.grad] for
    [z = (x**2).mean()] is the gradient of [z]: for a tensor [x] of any
    number [n] of entries, entry [i] of [x.grad] is [2 * x_i / n], and this
    is the derivative of [z] with respect to entry [i] of [x], the other
    entries kept (so [x/2] is the gradient for four entries only). *)
Theorem x_grad_is_gradient x i a :
  data x !! i = Some a ->
  exists gs g,
    backward_grad (mean_of_squares x) = Some gs /\ gs !! i = Some g /\
    g = 2 * a / INR (length (data x)) /\
    derivable_pt_lim
      (fun t => hd 0 (data (value (mean_of_squares
                                     (mkTensor (shape x)
                                               (<[i:=t]> (data x)))))))
      a g.
Proof.
  intros Hi. set (n := length (data x)).
  assert (0 < n)%nat as Hn
    by (pose proof (lookup_lt_Some _ _ _ Hi); unfold n; lia).
  assert (0 < INR n) as HnR by (by apply lt_0_INR).
  eexists _, (2 * a / INR n). split; [apply backprop_mean_of_squares|].
  split.
  { change (map ?f (data x)) with (f <$> data x).
    rewrite list_lookup_fmap, Hi. simpl. f_equal. fold n. field. lra. }
  split; [done|].
  intros eps Heps. exists (mkposreal eps Heps). intros h Hh Hlt.
  simpl in Hlt. cbn [mean_of_squares value data hd].
  rewrite !length_map, !length_insert. fold n.
  rewrite !(sum_squares_insert _ i a) by done.
  change (s_div ?u ?v) with (u / v). change (s_of_nat n) with (INR n).
  replace (_ - _) with (h / INR n) by (field; lra).
  unfold Rdiv. rewrite Rabs_mult, (Rabs_pos_eq (/ INR n)).
  - apply Rle_lt_trans with (Rabs h * 1); [|lra].
    apply Rmult_le_compat_l; [apply Rabs_pos|].
    rewrite <- Rinv_1. apply Rinv_le_contravar; [lra|].
    apply (le_INR 1). lia.
  - left. by apply Rinv_0_lt_compat.
Qed.

End AutogradExample.

(** ** Part 3: the data *)

Section Transform.
Local Open Scope R_scope.

Lemma INR_255 : INR 255 = 255.
Proof. rewrite INR_IZR_INZ. f_equal. Qed.

Lemma transform_pixel (p : nat) :
  (INR p / INR 255 - half) / half = 2 * INR p / 255 - 1.
Proof. rewrite INR_255. unfold half. simpl. field. Qed.

(** X13.  The transform of cell 1 of Part 3 (lines 88 to 90) maps a pixel
    [p] to [2 * p / 255 - 1]: every entry of every image that the loader
    hands to the model lies between -1 and 1 when the pixels are bytes (0
    to 255), black is -1 and white is 1. *)
Theorem transform_range (pic : Picture) :
  Forall (fun p => (p <= 255)%nat) pic ->
  data (transform (T := R) pic) = map (fun p => 2 * INR p / 255 - 1) pic /\
  Forall (fun a => -1 <= a <= 1) (data (transform (T := R) pic)) /\
  (forall k, pic !! k = Some 0%nat ->
             data (transform (T := R) pic) !! k = Some (-1)) /\
  (forall k, pic !! k = Some 255%nat ->
             data (transform (T := R) pic) !! k = Some 1).
Proof.
  intros Hp.
  assert (data (transform (T := R) pic) =
          map (fun p => 2 * INR p / 255 - 1) pic) as Hd.
  { unfold transform, Normalize, ToTensor. cbn [data]. rewrite map_map.
    apply map_ext. intros p. apply transform_pixel. }
  split; [done|]. rewrite Hd. split; [|split].
  - apply Forall_fmap. eapply Forall_impl; [exact Hp|].
    intros p Hle. simpl. pose proof (pos_INR p).
    apply le_INR in Hle. rewrite INR_255 in Hle. lra.
  - intros k Hk. change (map ?f pic) with (f <$> pic).
    rewrite list_lookup_fmap, Hk. simpl. f_equal. lra.
  - intros k Hk. change (map ?f pic) with (f <$> pic).
    rewrite list_lookup_fmap, Hk. cbn [fmap option_fmap option_map]. f_equal.
    rewrite INR_255. lra.
Qed.

End Transform.

(** ** Part 3: the loader *)

Section Loader.
Context {T : Type} {ST : Scalar T}.
Implicit Types (trainset : MNIST) (sampler batch : list nat).

Lemma concat_batch_sampler bs sampler batch :
  concat (batch_sampler bs sampler batch) = batch ++ sampler.
Proof.
  revert batch. induction sampler as [|idx sampler IH]; intros batch;
    cbn [batch_sampler].
  - rewrite app_nil_r. case_decide as H; simpl; [by rewrite app_nil_r|].
    destruct batch; [done | simpl in H; lia].
  - case_decide; simpl; rewrite IH, <- ?app_assoc; done.
Qed.

Lemma batch_sampler_sizes bs sampler batch :
  length batch < bs ->
  Forall (fun b => 0 < length b <= bs) (batch_sampler bs sampler batch).
Proof.
  revert batch. induction sampler as [|idx sampler IH]; intros batch Hb;
    cbn [batch_sampler].
  - case_decide; [|done]. apply Forall_singleton. lia.
  - case_decide as H.
    + constructor; [lia|]. apply IH. simpl. lia.
    + apply IH. rewrite length_app in *. simpl in *. lia.
Qed.


(** The indices of a pass are indices of the data set. *)
Lemma omap_trainset_getitem trainset batch :
  Forall (fun i => i < length trainset) batch ->
  Forall2 (fun i (s : Tensor T * nat) =>
             exists pic, trainset !! i = Some (pic, s.2) /\
                         s.1 = transform pic)
          batch (omap (trainset_getitem trainset) batch).
Proof.
  induction 1 as [|i batch Hi _ IH]; simpl; [constructor|].
  unfold trainset_getitem at 1.
  destruct (lookup_lt_is_Some_2 trainset i Hi) as [[pic y] Hs].
  rewrite Hs. constructor; [|done]. by exists pic.
Qed.

Lemma batch_sampler_indices bs sampler n :
  Forall (fun i => i < n) sampler ->
  Forall (Forall (fun i => i < n)) (batch_sampler bs sampler []).
Proof.
  intros H. apply Forall_concat.
  by rewrite concat_batch_sampler.
Qed.

Lemma shuffle_indices sampler n :
  sampler ≡ₚ seq 0 n -> Forall (fun i => i < n) sampler.
Proof.
  intros Hp. rewrite Hp. apply Forall_forall. intros i Hi.
  apply elem_of_seq in Hi. lia.
Qed.




Lemma numel_picture : foldr Nat.mul 1 [1; 28; 28] = 784.
Proof. reflexivity. Qed.

Lemma length_concat_data (samples : list (Tensor T * nat)) n :
  Forall (fun s => length (data s.1) = n) samples ->
  length (concat (map (fun s => data s.1) samples)) = length samples * n.
Proof.
  induction 1 as [|s samples Hs _ IH]; simpl; [done|].
  rewrite length_app, IH, Hs. done.
Qed.

(** A batch of the loader fits a model fed with rows of 784 entries. *)
Lemma collate_fits trainset batch c :
  Forall (fun s => length s.1 = 784 /\ s.2 < c) trainset ->
  Forall (fun i => i < length trainset) batch -> 0 < length batch ->
  batch_fits 784 c (collate (omap (trainset_getitem (T := T) trainset) batch)).
Proof.
  intros Hset Hidx Hne.
  pose proof (omap_trainset_getitem trainset batch Hidx) as H2.
  set (samples := omap _ batch) in *.
  assert (length samples = length batch) as Hlen
    by (symmetry; by eapply Forall2_length).
  assert (Forall (fun s : Tensor T * nat =>
                    length (data s.1) = 784 /\ s.2 < c) samples) as Hs.
  { clear Hlen Hne Hidx. induction H2 as [|i s b ss (pic & Hi & Hp) _ IH];
      constructor; [|done].
    apply list_elem_of_lookup_2 in Hi.
    apply (proj1 (Forall_forall _ _) Hset) in Hi as [Hpic Hy].
    simpl in *. split; [|done]. rewrite Hp. unfold transform, Normalize.
    cbn [data ToTensor]. by rewrite !length_map. }
  exists (length samples), [1; 28; 28]. unfold collate. cbn [fst snd shape].
  split; [done|]. split; [lia|]. split; [apply numel_picture|].
  split; [|split].
  - unfold numel. cbn [data shape]. cbn [foldr]. fold (foldr Nat.mul 1).
    rewrite (length_concat_data samples 784);
      [|eapply Forall_impl; [exact Hs | by intros ? []]].
    change (1 * (28 * (28 * 1))) with 784. done.
  - by rewrite length_map.
  - apply Forall_fmap. eapply Forall_impl; [exact Hs | by intros ? []].
Qed.

End Loader.

(** ** Part 3: training on the data of cell 1 *)

Section TrainingOnMNIST.
Context {T : Type} {ST : Scalar T}.
Variable autograd : Sequential T * rows T * list nat -> list (Tensor T).
Variable lr : T.

(** X15.  Cells 1 and 15 of Part 3 together: over a data set that is not
    empty, of pictures of 784 pixels with labels below the number of
    classes, the loop over [trainloader] (batches of 64, shuffled anew in
    every epoch) trains any model that takes rows of 784 entries for
    [epochs] epochs without raising, the last and shorter batch of an epoch
    included, and prints one training loss per epoch. *)
Theorem train_on_trainloader_completes (trainset : list (list nat * nat))
    (shuffle : nat -> list nat) epochs (w : World T) c :
  trainset <> [] ->
  Forall (fun s => length s.1 = 784 /\ s.2 < c) trainset ->
  (forall e, e < epochs -> shuffle e ≡ₚ seq 0 (length trainset)) ->
  out_width (model w) 784 = Some c ->
  exists w1,
    train autograd lr (trainloader trainset shuffle) epochs w = (w1, Ok tt) /\
    out_width (model w1) 784 = Some c /\
    length (stdout w1) = length (stdout w) + epochs.
Proof.
  intros Hne Hset Hperm Hw. unfold train.
  apply for_epochs_returns; [done | |].
  - unfold trainloader, DataLoader_init. cbn [dl_len].
    destruct trainset as [|s trainset']; [done|]. simpl length.
    intros H. apply Nat.div_small_iff in H; lia.
  - intros e He. unfold trainloader, DataLoader_init. cbn [dl_batches].
    apply Forall_fmap.
    pose proof (shuffle_indices _ _ (Hperm e ltac:(lia))) as Hidx.
    pose proof (batch_sampler_indices 64 _ _ Hidx) as Hbatches.
    pose proof (batch_sampler_sizes 64 (shuffle e) [] ltac:(simpl; lia))
      as Hsizes.
    induction Hbatches as [|b bs' Hb _ IH]; [constructor|].
    apply Forall_cons in Hsizes as [Hs Hsizes].
    constructor; [|by apply IH]. simpl.
    apply collate_fits; [done | done | lia].
Qed.

End TrainingOnMNIST.

(** ** Part 3: the single step of cell 13 *)

Section SingleStep.
Context {T : Type} {ST : Scalar T}.
Variable autograd : Sequential T * rows T * list nat -> list (Tensor T).
Implicit Types (w : World T) (images : Tensor T).

Lemma length_resize_ (junk : nat -> T) images sizes :
  length (data (resize_ junk images sizes)) = foldr Nat.mul 1 sizes.
Proof.
  unfold resize_. cbn [data].
  rewrite length_app, length_take, length_map, length_seq. lia.
Qed.

(** Resizing to the number of entries that the tensor has keeps them all. *)
Lemma data_resize_same (junk : nat -> T) images sizes :
  length (data images) = foldr Nat.mul 1 sizes ->
  data (resize_ junk images sizes) = data images.
Proof.
  intros Hl. unfold resize_. cbn [data]. rewrite <- Hl, Nat.sub_diag.
  rewrite firstn_all. simpl. by rewrite app_nil_r.
Qed.

(** X16.  The single step of cell 13 of Part 3 works for a batch of 64
    images only.  For such a batch [images.resize_(64, 784)] gives the rows
    that [images.view(images.shape[0], -1)] gives in cell 15, and the cell
    clears the gradients and runs the forward pass, the loss and the
    backward pass on them without raising.  For a batch of any other size
    the resize cuts the batch or fills it with uninitialised rows, the
    model returns 64 rows, and the criterion raises because there are not
    64 labels: the cell ends with the gradients cleared and no gradient
    computed. *)
Theorem single_step_batch_of_64 (junk : nat -> T) images labels w bsz rest c :
  shape images = bsz :: rest -> foldr Nat.mul 1 rest = 784 ->
  length (data images) = numel images ->
  length labels = bsz -> Forall (fun y => y < c) labels ->
  out_width (model w) 784 = Some c ->
  (bsz = 64 ->
   exists x w1 l,
     view images = Ok x /\
     single_step autograd junk (images, labels) w = (w1, Ok l) /\
     single_step autograd junk (images, labels) w =
     mbind zero_grad (fun _ => backward_pass autograd x labels) w) /\
  (bsz <> 64 ->
   exists w1,
     single_step autograd junk (images, labels) w = (w1, Raise TargetError) /\
     model w1 = model w /\
     grads w1 = map (fmap zeros_like) (grads w)).
Proof.
  intros Hs Hrest Hd Hl Hc Hw.
  assert (numel images = bsz * 784) as Hn
    by (unfold numel; rewrite Hs; cbn [foldr]; by rewrite Hrest).
  set (x64 := reshape (replicate 64 784)
                      (data (resize_ junk images [64; 784]))).
  assert (has_dims 64 784 x64) as Hx64.
  { apply reshape_replicate_dims. rewrite length_resize_. cbn [foldr]. lia. }
  destruct (Sequential_forward_width (model w) 784 c x64 64 Hw Hx64)
    as (y & Hy & Hdims).
  unfold single_step. fold x64. split.
  - intros ->.
    assert (view images = Ok x64) as Hv.
    { unfold view. rewrite Hs. case_decide; [done|]. f_equal. unfold x64.
      rewrite data_resize_same by (cbn [foldr]; lia).
      by rewrite Hn, (Nat.mul_comm 64 784), Nat.div_mul. }
    destruct (nll_loss_returns y labels 64 c Hdims Hl Hc) as [v Hv'].
    exists x64.
    unfold mbind, zero_grad, backward_pass, criterion, call_model, mbind,
      lift, log, backward, mret. cbn [model grads stdout trace].
    rewrite Hy. cbn [out_value out_graph]. rewrite Hv'.
    eexists _, _. split; [done|]. split; reflexivity.
  - intros Hne.
    unfold mbind, zero_grad, backward_pass, criterion, call_model, mbind,
      lift. cbn [model grads stdout trace].
    rewrite Hy. cbn [out_value out_graph].
    unfold nll_loss. destruct Hdims as [Hlen _].
    case_decide as Hlen'; [lia|]. eexists. split; [reflexivity|]. done.
Qed.

End SingleStep.

(** ** Instances of the Part 3 properties *)

(** Two epochs over the two batches of the small loader. *)
Lemma train_completes_witness :
  (out_width (model small_world) 2 = Some 2 /\
   dl_len small_loader <> 0 /\
   (forall e, e < 2 -> Forall (batch_fits 2 2) (dl_batches small_loader e)))
  /\
  exists w1,
    train small_gradient (3 / 1000)%R small_loader 2 small_world
    = (w1, Ok tt) /\
    out_width (model w1) 2 = Some 2 /\
    length (stdout w1) = length (stdout small_world) + 2.
Proof.
  assert (out_width (model small_world) 2 = Some 2) as H1
    by (vm_compute; reflexivity).
  assert (dl_len small_loader <> 0) as H2 by discriminate.
  assert (forall e, e < 2 ->
            Forall (batch_fits 2 2) (dl_batches small_loader e)) as H3.
  { intros e _. repeat constructor;
      (exists 1, [1; 2]; repeat split; [discriminate | repeat constructor]). }
  split; [exact (conj H1 (conj H2 H3))|].
  exact (train_completes small_gradient (3 / 1000)%R small_loader 2
           small_world 2 2 H1 H2 H3).
Defined.

(** A second pass over a batch, with the gradients of the first pass still
    stored. *)
Lemma training_pass_update_witness :
  let lr := (3 / 1000)%R in
  let images := mkTensor [1; 1; 2] [1%R; 0%R] in
  let w := (training_pass small_gradient lr (images, [0]) small_world).1 in
  let r := training_pass small_gradient lr (images, [0]) w in
  exists l,
    (r = (r.1, Ok l) /\
     length (grads w) = length (parameters (model w)) /\
     (forall x, view images = Ok x ->
        grads_fit (grads w) (small_gradient (model w, x, [0])))) /\
    exists x,
      view images = Ok x /\
      parameters (model r.1) =
      zip_with (fun p d =>
                  mkTensor (shape p)
                    (zip_with (fun a b => (a - lr * b)%R) (data p) (data d)))
               (parameters (model w)) (small_gradient (model w, x, [0])) /\
      Forall2 (fun og d => data <$> og = Some (data d))
              (grads r.1) (small_gradient (model w, x, [0])).
Proof.
  intros lr images w r.
  assert (exists l, r = (r.1, Ok l)) as [l H1]
    by (eexists; vm_compute; reflexivity).
  assert (length (grads w) = length (parameters (model w))) as H2
    by (vm_compute; reflexivity).
  assert (forall x, view images = Ok x ->
            grads_fit (grads w) (small_gradient (model w, x, [0]))) as H3
    by (intros x _; vm_compute; repeat constructor).
  exists l. split; [exact (conj H1 (conj H2 H3))|].
  exact (training_pass_update small_gradient lr images [0] w r.1 l H1 H2 H3).
Defined.



(** The gradient at the tensor with the entries 1, 2, 3, 4. *)
Lemma x_grad_is_half_x_witness :
  let x := mkTensor [2; 2] [1%R; 2%R; 3%R; 4%R] in
  length (data x) = 4 /\
  backward_grad (mean_of_squares x) =
  Some (map (fun a => (a / 2)%R) (data x)).
Proof.
  intros x.
  assert (length (data x) = 4) as H by reflexivity.
  split; [exact H|]. exact (x_grad_is_half_x x H).
Defined.

Lemma x_grad_is_gradient_witness :
  let x := mkTensor [3] [1%R; 2%R; 3%R] in
  data x !! 1 = Some 2%R /\
  exists gs g,
    backward_grad (mean_of_squares x) = Some gs /\ gs !! 1 = Some g /\
    g = (2 * 2 / INR (length (data x)))%R /\
    derivable_pt_lim
      (fun t => hd 0%R (data (value (mean_of_squares
                                       (mkTensor (shape x)
                                                 (<[1:=t]> (data x)))))))
      2 g.
Proof.
  intros x.
  assert (data x !! 1 = Some 2%R) as H by reflexivity.
  split; [exact H|]. exact (x_grad_is_gradient x 1 2%R H).
Defined.

(** A picture with a black, a grey and a white pixel. *)
Lemma transform_range_witness :
  let pic := [0; 128; 255] in
  Forall (fun p => p <= 255) pic /\
  data (transform (T := R) pic) =
    map (fun p => (2 * INR p / 255 - 1)%R) pic /\
  Forall (fun a => (-1 <= a <= 1)%R) (data (transform (T := R) pic)) /\
  (forall k, pic !! k = Some 0 ->
             data (transform (T := R) pic) !! k = Some (-1)%R) /\
  (forall k, pic !! k = Some 255 ->
             data (transform (T := R) pic) !! k = Some 1%R).
Proof.
  intros pic.
  assert (Forall (fun p => p <= 255) pic) as H by (repeat constructor; lia).
  split; [exact H|]. exact (transform_range pic H).
Defined.


(** Two epochs over sixty-five pictures, in the order of the data set. *)
Lemma train_on_trainloader_completes_witness :
  let shuffle := fun _ : nat => seq 0 65 in
  (black_pictures <> [] /\
   Forall (fun s => length s.1 = 784 /\ s.2 < 2) black_pictures /\
   (forall e, e < 2 -> shuffle e ≡ₚ seq 0 (length black_pictures)) /\
   out_width (model picture_world) 784 = Some 2) /\
  exists w1,
    train picture_gradient (3 / 1000)%R
          (trainloader black_pictures shuffle) 2 picture_world
    = (w1, Ok tt) /\
    out_width (model w1) 784 = Some 2 /\
    length (stdout w1) = length (stdout picture_world) + 2.
Proof.
  intros shuffle.
  assert (black_pictures <> []) as H1 by discriminate.
  assert (Forall (fun s : list nat * nat => length s.1 = 784 /\ s.2 < 2)
                 black_pictures) as H2.
  { apply Forall_replicate. split; [apply length_replicate | simpl; lia]. }
  assert (forall e, e < 2 -> shuffle e ≡ₚ seq 0 (length black_pictures))
    as H3.
  { intros e _. unfold black_pictures. rewrite length_replicate.
    reflexivity. }
  assert (out_width (model picture_world) 784 = Some 2) as H4
    by (vm_compute; reflexivity).
  split; [exact (conj H1 (conj H2 (conj H3 H4)))|].
  exact (train_on_trainloader_completes picture_gradient (3 / 1000)%R
           black_pictures shuffle 2 picture_world 2 H1 H2 H3 H4).
Defined.

(** The step of cell 13 on a batch of one picture. *)
Lemma single_step_batch_of_64_witness :
  let images := mkTensor [1; 1; 28; 28] (replicate 784 0%R) in
  let junk := fun _ : nat => 0%R in
  (shape images = [1; 1; 28; 28] /\ foldr Nat.mul 1 [1; 28; 28] = 784 /\
   length (data images) = numel images /\
   length [1] = 1 /\ Forall (fun y => y < 2) [1] /\
   out_width (model picture_world) 784 = Some 2) /\
  (1 = 64 ->
   exists x w1 l,
     view images = Ok x /\
     single_step picture_gradient junk (images, [1]) picture_world
     = (w1, Ok l) /\
     single_step picture_gradient junk (images, [1]) picture_world =
     mbind zero_grad (fun _ => backward_pass picture_gradient x [1])
           picture_world) /\
  (1 <> 64 ->
   exists w1,
     single_step picture_gradient junk (images, [1]) picture_world
     = (w1, Raise TargetError) /\
     model w1 = model picture_world /\
     grads w1 = map (fmap zeros_like) (grads picture_world)).
Proof.
  intros images junk.
  assert (shape images = [1; 1; 28; 28]) as H1 by reflexivity.
  assert (foldr Nat.mul 1 [1; 28; 28] = 784) as H2
    by (vm_compute; reflexivity).
  assert (length (data images) = numel images) as H3
    by (vm_compute; reflexivity).
  assert (length [1] = 1) as H4 by reflexivity.
  assert (Forall (fun y => y < 2) [1]) as H5 by (repeat constructor).
  assert (out_width (model picture_world) 784 = Some 2) as H6
    by (vm_compute; reflexivity).
  split; [by repeat split|].
  exact (single_step_batch_of_64 picture_gradient junk images [1] picture_world
           1 [1; 28; 28] 2 H1 H2 H3 H4 H5 H6).
Defined.
